(** * The workflow entity of neovm-taskd: ready steps, status changes,
      progress and the output bag

    Shallow embedding of the [Workflow] class of [src/taw/Workflow.ts]
    (the same methods are in [src/task/Workflow.ts]) over the data of
    [src/taw/schema/workflow.ts].

    Conventions of the embedding:
    - the private field [_data] and the calls of [Date.now()] are the state
      of a small state monad [M]; every method is a computation in [M];
    - objects used as dictionaries ([stepStates], [variables], [outputs])
      are finite maps of their own properties ([gmap string _]) together
      with what their prototype chain adds: the members of
      [Object.prototype], and the prototype an assignment to ["__proto__"]
      installs;
    - integer-valued numbers (timestamps, retry counts) are in [Z], array
      lengths are in [nat], and [progressPercent] is an IEEE binary64
      number ([float]), as in JavaScript. *)

From Stdlib Require Import Floats Uint63.
From stdpp Require Import base option list strings gmap fin_maps.

Local Open Scope Z_scope.
Local Open Scope string_scope.

(** ** Data model ([schema/workflow.ts]) *)

(** A primitive value of type [any] / [unknown] stored in a bag; numbers
    are the integer ones. *)
Inductive JsValue : Type :=
  | JsNull
  | JsBool (b : bool)
  | JsNumber (n : Z)
  | JsString (s : string).

#[global] Instance JsValue_eq_dec : EqDecision JsValue.
Proof. solve_decision. Defined.

Module StepType.
Inductive t : Type := task | subworkflow | decision | parallel | wait | manual.
End StepType.

Module BackoffStrategy.
Inductive t : Type := fixed | exponential | linear.
End BackoffStrategy.

(** [WorkflowStepSchema.condition] *)
Module Condition.
Record t : Type := mk {
  expression : option string;
  variables : option (gmap string JsValue)
}.
End Condition.

(** [WorkflowStepSchema.retryPolicy] *)
Module RetryPolicy.
Record t : Type := mk {
  maxAttempts : Z;
  backoffStrategy : BackoffStrategy.t;
  initialDelayMs : Z;
  maxDelayMs : option Z;
  jitterPercent : Z
}.
End RetryPolicy.

(** [WorkflowStepSchema]; the fields [taskId], [workflowId], [timeoutMs],
    [resources] and [config] are read by none of the methods below. *)
Module WorkflowStep.
Record t : Type := mk {
  id : string;
  name : string;
  type : StepType.t;
  dependsOn : list string;
  runAfter : list string;
  condition : option Condition.t;
  retryPolicy : option RetryPolicy.t
}.

Definition with_condition (c : option Condition.t) (s : t) : t :=
  mk (id s) (name s) (type s) (dependsOn s) (runAfter s) c (retryPolicy s).
End WorkflowStep.

Module FlowType.
Inductive t : Type := sequential | parallel | dag | state_machine.
End FlowType.

(** [WorkflowDefinitionSchema] *)
Module WorkflowDefinition.
Record t : Type := mk {
  steps : list WorkflowStep.t;
  startStep : string;
  endSteps : list string;
  flowType : FlowType.t;
  maxConcurrency : option Z
}.

Definition with_steps (l : list WorkflowStep.t) (d : t) : t :=
  mk l (startStep d) (endSteps d) (flowType d) (maxConcurrency d).
Definition with_maxConcurrency (n : option Z) (d : t) : t :=
  mk (steps d) (startStep d) (endSteps d) (flowType d) n.
End WorkflowDefinition.

(** [WorkflowStatusEnum] *)
Module WorkflowStatus.
Inductive t : Type :=
  | draft | pending | running | paused | completed
  | failed | cancelled | timeout | suspended.

#[global] Instance eq_dec : EqDecision t.
Proof. solve_decision. Defined.

Definition to_string (s : t) : string :=
  match s with
  | draft => "draft" | pending => "pending" | running => "running"
  | paused => "paused" | completed => "completed" | failed => "failed"
  | cancelled => "cancelled" | timeout => "timeout"
  | suspended => "suspended"
  end.
End WorkflowStatus.

(** The status enumeration of a [stepStates] record. *)
Module StepStatus.
Inductive t : Type :=
  | pending | running | completed | failed | skipped | cancelled.

#[global] Instance eq_dec : EqDecision t.
Proof. solve_decision. Defined.
End StepStatus.

(** One record object of [executionState.stepStates], by the keys of the
    schema that it has (the methods read no other key). The schema gives
    every parsed record a [status] and a [retryCount]; a record written by
    [updateStepState] under a key that [Object.prototype] also has can
    lack them, so every key is optional. *)
Module StepState.
Record t : Type := mk {
  status : option StepStatus.t;
  startedAt : option Z;
  completedAt : option Z;
  duration : option Z;
  retryCount : option Z;
  result : option JsValue;
  error : option string
}.

#[global] Instance eq_dec : EqDecision t.
Proof. solve_decision. Defined.

(** A truthy value that has none of the record keys: [{}], a function, a
    non-empty string, a non-zero number. *)
Definition noFields : t := mk None None None None None None None.
End StepState.

(** [Partial<StepState>]: every key may be absent. *)
Module PartialStepState.
Record t : Type := mk {
  status : option StepStatus.t;
  startedAt : option Z;
  completedAt : option Z;
  duration : option Z;
  retryCount : option Z;
  result : option JsValue;
  error : option string
}.

Definition of_status (s : StepStatus.t) : t :=
  mk (Some s) None None None None None None.
End PartialStepState.

(** [if (v)]: the truthiness of a value. *)
Definition truthyValue (v : JsValue) : bool :=
  match v with
  | JsNull => false
  | JsBool b => b
  | JsNumber n => negb (bool_decide (n = 0))
  | JsString s => negb (bool_decide (s = ""))
  end.

(** The names of the properties of [Object.prototype], which every plain
    object inherits: functions, and the accessor [__proto__]. *)
Definition objectPrototypeMembers : list string :=
  ["constructor"; "__defineGetter__"; "__defineSetter__"; "hasOwnProperty";
   "__lookupGetter__"; "__lookupSetter__"; "isPrototypeOf";
   "propertyIsEnumerable"; "toString"; "valueOf"; "__proto__";
   "toLocaleString"].

(** The object [executionState.stepStates]: its own properties, which are
    record objects, and its prototype, which is [Object.prototype] ([None])
    until an assignment to ["__proto__"] replaces it by a record object
    (whose own prototype is [Object.prototype]). *)
Module StepStates.
Record t : Type := mk {
  own : gmap string StepState.t;
  proto : option StepState.t
}.

(** [r[key]] for a record object [r] that has the key: whether the value
    is truthy; [None] when [r] does not have the key. *)
Definition field (r : StepState.t) (key : string) : option bool :=
  if bool_decide (key = "status")
  then (fun _ => true) <$> StepState.status r
  else if bool_decide (key = "startedAt")
  then (fun n => negb (bool_decide (n = 0))) <$> StepState.startedAt r
  else if bool_decide (key = "completedAt")
  then (fun n => negb (bool_decide (n = 0))) <$> StepState.completedAt r
  else if bool_decide (key = "duration")
  then (fun n => negb (bool_decide (n = 0))) <$> StepState.duration r
  else if bool_decide (key = "retryCount")
  then (fun n => negb (bool_decide (n = 0))) <$> StepState.retryCount r
  else if bool_decide (key = "result")
  then truthyValue <$> StepState.result r
  else if bool_decide (key = "error")
  then (fun s => negb (bool_decide (s = ""))) <$> StepState.error r
  else None.

(** What the prototype chain gives for a key that is no own property:
    for ["__proto__"] the getter returns the prototype itself; a key of
    the installed prototype record gives its value there; a member of
    [Object.prototype] gives that function. The value is given as the
    class uses it: [None] when it is falsy, else the record keys it has. *)
Definition inherited (s : t) (key : string) : option StepState.t :=
  if bool_decide (key = "__proto__")
  then Some (default StepState.noFields (proto s))
  else
    match proto s ≫= (fun r => field r key) with
    | Some true => Some StepState.noFields
    | Some false => None
    | None =>
        if bool_decide (key ∈ objectPrototypeMembers)
        then Some StepState.noFields
        else None
    end.

(** [stepStates[key]], as the class uses the value: [None] when it is
    falsy ([undefined], or a falsy inherited value), [Some r] when it is
    truthy, with the record keys it has. *)
Definition lookup (s : t) (key : string) : option StepState.t :=
  match own s !! key with
  | Some r => Some r
  | None => inherited s key
  end.

(** [stepStates[key] = r] for a record object [r]: an own property is
    created or overwritten, except that ["__proto__"], when it is no own
    property, reaches the setter of [Object.prototype], which makes [r]
    the prototype. *)
Definition assign (key : string) (r : StepState.t) (s : t) : t :=
  if bool_decide (key = "__proto__") && bool_decide (own s !! key = None)
  then mk (own s) (Some r)
  else mk (<[key := r]> (own s)) (proto s).

#[global] Instance eq_dec : EqDecision t.
Proof. solve_decision. Defined.
End StepStates.

(** An object that holds values of type [any] ([variables], [outputs]):
    its own properties, and whether its prototype has been set to [null]
    (by an assignment of [null] to ["__proto__"]). *)
Module Bag.
Record t : Type := mk {
  own : gmap string JsValue;
  nullProto : bool
}.

(** [{}] *)
Definition empty : t := mk ∅ false.

(** The value of [bag[key]]: an own property, a member of
    [Object.prototype] (for ["__proto__"], that prototype itself), or
    [undefined]. *)
Inductive read : Type :=
  | Undefined
  | Value (v : JsValue)
  | Inherited (name : string).

Definition get (b : t) (key : string) : read :=
  match own b !! key with
  | Some v => Value v
  | None =>
      if negb (nullProto b) && bool_decide (key ∈ objectPrototypeMembers)
      then Inherited key
      else Undefined
  end.

(** [bag[key] = value]: an own property is created or overwritten, except
    that ["__proto__"], when it is no own property and [Object.prototype]
    is still the prototype, reaches the setter: [null] becomes the
    prototype, any other of these values is ignored. *)
Definition set (key : string) (value : JsValue) (b : t) : t :=
  if bool_decide (key = "__proto__") && bool_decide (own b !! key = None)
     && negb (nullProto b)
  then match value with
       | JsNull => mk (own b) true
       | _ => b
       end
  else mk (<[key := value]> (own b)) (nullProto b).
End Bag.

(** [executionState.progress] *)
Module Progress.
Record t : Type := mk {
  totalSteps : nat;
  completedSteps : nat;
  failedSteps : nat;
  skippedSteps : nat;
  progressPercent : float
}.
End Progress.

(** [WorkflowExecutionStateSchema] *)
Module ExecutionState.
Record t : Type := mk {
  status : WorkflowStatus.t;
  progress : Progress.t;
  scheduledAt : option Z;
  startedAt : option Z;
  completedAt : option Z;
  currentStep : option string;
  activeSteps : list string;
  waitingSteps : list string;
  stepStates : StepStates.t;
  variables : option Bag.t;
  outputs : option Bag.t
}.

Definition with_status (x : WorkflowStatus.t) (e : t) : t :=
  mk x (progress e) (scheduledAt e) (startedAt e) (completedAt e)
     (currentStep e) (activeSteps e) (waitingSteps e) (stepStates e)
     (variables e) (outputs e).
Definition with_progress (x : Progress.t) (e : t) : t :=
  mk (status e) x (scheduledAt e) (startedAt e) (completedAt e)
     (currentStep e) (activeSteps e) (waitingSteps e) (stepStates e)
     (variables e) (outputs e).
Definition with_startedAt (x : option Z) (e : t) : t :=
  mk (status e) (progress e) (scheduledAt e) x (completedAt e)
     (currentStep e) (activeSteps e) (waitingSteps e) (stepStates e)
     (variables e) (outputs e).
Definition with_completedAt (x : option Z) (e : t) : t :=
  mk (status e) (progress e) (scheduledAt e) (startedAt e) x
     (currentStep e) (activeSteps e) (waitingSteps e) (stepStates e)
     (variables e) (outputs e).
Definition with_activeSteps (x : list string) (e : t) : t :=
  mk (status e) (progress e) (scheduledAt e) (startedAt e) (completedAt e)
     (currentStep e) x (waitingSteps e) (stepStates e)
     (variables e) (outputs e).
Definition with_stepStates (x : StepStates.t) (e : t) : t :=
  mk (status e) (progress e) (scheduledAt e) (startedAt e) (completedAt e)
     (currentStep e) (activeSteps e) (waitingSteps e) x
     (variables e) (outputs e).
Definition with_outputs (x : option Bag.t) (e : t) : t :=
  mk (status e) (progress e) (scheduledAt e) (startedAt e) (completedAt e)
     (currentStep e) (activeSteps e) (waitingSteps e) (stepStates e)
     (variables e) x.
End ExecutionState.

(** One entry of [metadata.auditLog]. *)
Module AuditEntry.
Record t : Type := mk {
  timestamp : Z;
  action : string;
  details : option (gmap string JsValue)
}.
End AuditEntry.

(** [WorkflowMetadataSchema], the fields the methods write. *)
Module Metadata.
Record t : Type := mk {
  createdAt : Z;
  updatedAt : Z;
  auditLog : list AuditEntry.t
}.

Definition with_updatedAt (x : Z) (m : t) : t :=
  mk (createdAt m) x (auditLog m).
Definition with_auditLog (x : list AuditEntry.t) (m : t) : t :=
  mk (createdAt m) (updatedAt m) x.
End Metadata.

(** [WorkflowSchema]: the type of [this._data]. *)
Module WorkflowType.
Record t : Type := mk {
  id : string;
  name : string;
  definition : WorkflowDefinition.t;
  executionState : ExecutionState.t;
  metadata : Metadata.t
}.

Definition with_definition (x : WorkflowDefinition.t) (w : t) : t :=
  mk (id w) (name w) x (executionState w) (metadata w).
Definition with_executionState (x : ExecutionState.t) (w : t) : t :=
  mk (id w) (name w) (definition w) x (metadata w).
Definition with_metadata (x : Metadata.t) (w : t) : t :=
  mk (id w) (name w) (definition w) (executionState w) x.
End WorkflowType.

(** ** The state monad of the class *)

(** The state a method runs in: the object's [_data] and the number of
    [Date.now()] calls made so far. *)
Record Env : Type := mkEnv {
  _data : WorkflowType.t;
  ticks : nat
}.

Definition M (A : Type) : Type := Env -> A * Env.

Definition ret {A} (a : A) : M A := fun e => (a, e).
Definition bind {A B} (m : M A) (k : A -> M B) : M B :=
  fun e => match m e with (a, e') => k a e' end.

Notation "'let*' x ':=' m 'in' k" := (bind m (fun x => k))
  (at level 10, x name, m at level 100, k at level 200).
Notation "m ';;' k" := (bind m (fun _ => k))
  (at level 100, k at level 200, right associativity).

Definition this : M WorkflowType.t := fun e => (_data e, e).
Definition assign (f : WorkflowType.t -> WorkflowType.t) : M unit :=
  fun e => (tt, mkEnv (f (_data e)) (ticks e)).

Definition evalM {A} (m : M A) (e : Env) : A := fst (m e).
Definition execM {A} (m : M A) (e : Env) : Env := snd (m e).

(** [if (c) { body }] *)
Definition when (c : bool) (body : M unit) : M unit :=
  if c then body else ret tt.

(** [Array.prototype.filter] with a predicate that runs in [M]. *)
Fixpoint filterM {A} (p : A -> M bool) (l : list A) : M (list A) :=
  match l with
  | [] => ret []
  | x :: l' =>
      let* keep := p x in
      let* rest := filterM p l' in
      ret (if keep then x :: rest else rest)
  end.

(** ** Step management ([Workflow.ts], lines 303-336) *)

(** [getStep]: [steps.find(step => step.id === stepId)], the first match. *)
Definition getStep (stepId : string) : M (option WorkflowStep.t) :=
  let* d := this in
  ret (List.find (fun step => bool_decide (WorkflowStep.id step = stepId))
         (WorkflowDefinition.steps (WorkflowType.definition d))).

(** [getStepState]: [stepStates[stepId]], through the prototype chain. The
    value is given as its users see it: [None] when it is falsy, [Some r]
    when it is truthy, [r] holding the record keys it has (none for an
    inherited function). *)
Definition getStepState (stepId : string) : M (option StepState.t) :=
  let* d := this in
  ret (StepStates.lookup
         (ExecutionState.stepStates (WorkflowType.executionState d)) stepId).

(** The [for ... of step.dependsOn] loop of [isStepReady], which returns
    [false] at the first dependency without a completed state. *)
Fixpoint dependsOnLoop (deps : list string) : M bool :=
  match deps with
  | [] => ret true
  | depId :: rest =>
      let* depState := getStepState depId in
      match depState with
      | None => ret false
      | Some st =>
          if bool_decide (StepState.status st <> Some StepStatus.completed)
          then ret false
          else dependsOnLoop rest
      end
  end.

Definition isStepReady (stepId : string) : M bool :=
  let* step := getStep stepId in
  match step with
  | None => ret false
  | Some step => dependsOnLoop (WorkflowStep.dependsOn step)
  end.

(** [!state || state.status === 'pending'] *)
Definition notStartedYet (state : option StepState.t) : bool :=
  match state with
  | None => true
  | Some st => bool_decide (StepState.status st = Some StepStatus.pending)
  end.

Definition getReadySteps : M (list string) :=
  let* d := this in
  let* ready :=
    filterM (fun step =>
               let* state := getStepState (WorkflowStep.id step) in
               if notStartedYet state
               then isStepReady (WorkflowStep.id step)
               else ret false)
            (WorkflowDefinition.steps (WorkflowType.definition d)) in
  ret (List.map WorkflowStep.id ready).

(** ** The resolver of [WorkflowPure.ts] (lines 113-141)

    [getStep] and [getStepState] are the same as above. The steps of this
    class carry their hard dependencies in a field [dependencies]; the
    schema that declares it is not part of the sources, so the field is a
    parameter here. *)
Module WorkflowPure.
Section Dependencies.

Variable dependencies : WorkflowStep.t -> list string.

(** [depState?.status === 'completed'] *)
Definition completedState (depState : option StepState.t) : bool :=
  match depState with
  | Some st => bool_decide (StepState.status st = Some StepStatus.completed)
  | None => false
  end.

(** [deps.every(depId => ...)], which stops at the first [false]. *)
Fixpoint every (deps : list string) : M bool :=
  match deps with
  | [] => ret true
  | depId :: rest =>
      let* depState := getStepState depId in
      if completedState depState then every rest else ret false
  end.

Definition isStepReady (stepId : string) : M bool :=
  let* step := getStep stepId in
  match step with
  | None => ret false
  | Some step => every (dependencies step)
  end.

Definition getReadySteps : M (list string) :=
  let* d := this in
  let* ready :=
    filterM (fun step => isStepReady (WorkflowStep.id step))
            (WorkflowDefinition.steps (WorkflowType.definition d)) in
  let* pending :=
    filterM (fun step =>
               let* state := getStepState (WorkflowStep.id step) in
               ret (notStartedYet state))
            ready in
  ret (List.map WorkflowStep.id pending).

End Dependencies.
End WorkflowPure.

(** ** State management ([Workflow.ts], lines 186-286) *)

(** A JavaScript number holding a count. *)
Definition js_number (n : nat) : float :=
  PrimFloat.of_uint63 (Uint63.of_Z (Z.of_nat n)).

(** [Object.values(stepStates).filter(state => state.status === s).length],
    over the own properties of [stepStates]. *)
Definition countStatus (s : StepStatus.t)
    (stepStates : gmap string StepState.t) : nat :=
  length (List.filter
            (fun state => bool_decide (StepState.status state = Some s))
            (snd <$> map_to_list stepStates)).

(** [totalSteps > 0 ? (completedSteps / totalSteps) * 100 : 0] *)
Definition percentOf (completedSteps totalSteps : nat) : float :=
  if bool_decide (0 < totalSteps)%nat
  then (js_number completedSteps / js_number totalSteps * 100)%float
  else 0%float.

(** The object literal [updateProgress] stores. *)
Definition aggregate (steps : list WorkflowStep.t)
    (stepStates : gmap string StepState.t) : Progress.t :=
  let totalSteps := length steps in
  let completedSteps := countStatus StepStatus.completed stepStates in
  let failedSteps := countStatus StepStatus.failed stepStates in
  let skippedSteps := countStatus StepStatus.skipped stepStates in
  Progress.mk totalSteps completedSteps failedSteps skippedSteps
    (percentOf completedSteps totalSteps).

(** [{ ...old, ...state }] on one optional key. *)
Definition spreadKey {A} (old state : option A) : option A :=
  match state with
  | Some v => Some v
  | None => old
  end.

(** [{ ...this._data.executionState.stepStates[stepId], ...state }] *)
Definition spread (old : StepState.t) (state : PartialStepState.t)
    : StepState.t :=
  StepState.mk
    (spreadKey (StepState.status old) (PartialStepState.status state))
    (spreadKey (StepState.startedAt old) (PartialStepState.startedAt state))
    (spreadKey (StepState.completedAt old)
       (PartialStepState.completedAt state))
    (spreadKey (StepState.duration old) (PartialStepState.duration state))
    (spreadKey (StepState.retryCount old)
       (PartialStepState.retryCount state))
    (spreadKey (StepState.result old) (PartialStepState.result state))
    (spreadKey (StepState.error old) (PartialStepState.error state)).

(** [{ status: 'pending', retryCount: 0 }] *)
Definition defaultStepState : StepState.t :=
  StepState.mk (Some StepStatus.pending) None None None (Some 0) None None.

(** [activeSteps.includes(stepId)] *)
Definition includes (l : list string) (x : string) : bool :=
  bool_decide (x ∈ l).

(** [index = l.indexOf(x); if (index > -1) l.splice(index, 1)] *)
Fixpoint spliceOut (x : string) (l : list string) : list string :=
  match l with
  | [] => []
  | y :: l' => if bool_decide (y = x) then l' else y :: spliceOut x l'
  end.

(** [!this._data.executionState.startedAt]: [undefined] and [0] are falsy. *)
Definition falsyNumber (n : option Z) : bool :=
  match n with
  | None => true
  | Some z => bool_decide (z = 0)
  end.

Definition onExecutionState (f : ExecutionState.t -> ExecutionState.t)
    : M unit :=
  assign (fun d =>
    WorkflowType.with_executionState (f (WorkflowType.executionState d)) d).

Definition onMetadata (f : Metadata.t -> Metadata.t) : M unit :=
  assign (fun d => WorkflowType.with_metadata (f (WorkflowType.metadata d)) d).

Section Methods.

(** The value of the [n]-th call of [Date.now()]. *)
Variable clock : nat -> Z.

Definition Date_now : M Z :=
  fun e => (clock (ticks e), mkEnv (_data e) (S (ticks e))).

(** [this._data.metadata.updatedAt = Date.now()] *)
Definition touch : M unit :=
  let* now := Date_now in
  onMetadata (Metadata.with_updatedAt now).

Definition updateStatus (status : WorkflowStatus.t) : M unit :=
  onExecutionState (ExecutionState.with_status status) ;;
  touch ;;
  (let* d := this in
   when (bool_decide (status = WorkflowStatus.running)
         && falsyNumber
              (ExecutionState.startedAt (WorkflowType.executionState d)))
     (let* now := Date_now in
      onExecutionState (ExecutionState.with_startedAt (Some now)))) ;;
  when (bool_decide (status ∈ [WorkflowStatus.completed;
                                WorkflowStatus.failed;
                                WorkflowStatus.cancelled]))
    (let* now := Date_now in
     onExecutionState (ExecutionState.with_completedAt (Some now))) ;;
  (let* now := Date_now in
   onMetadata (fun m =>
     Metadata.with_auditLog
       (Metadata.auditLog m ++
        [AuditEntry.mk now
           ("status_changed_to_" +:+ WorkflowStatus.to_string status)
           None]) m)).

Definition updateProgress : M unit :=
  (let* d := this in
   onExecutionState
     (ExecutionState.with_progress
        (aggregate (WorkflowDefinition.steps (WorkflowType.definition d))
           (StepStates.own
              (ExecutionState.stepStates
                 (WorkflowType.executionState d)))))) ;;
  touch.

(** The first statement tests [!stepStates[stepId]], the second reads
    [stepStates[stepId]] again and spreads what it finds ([{...undefined}]
    and the spread of an inherited function are both [{}]). *)
Definition updateStepState (stepId : string) (state : PartialStepState.t)
    : M unit :=
  (let* current := getStepState stepId in
   when (bool_decide (current = None))
     (onExecutionState (fun e =>
        ExecutionState.with_stepStates
          (StepStates.assign stepId defaultStepState
             (ExecutionState.stepStates e))
          e))) ;;
  (let* current := getStepState stepId in
   onExecutionState (fun e =>
     ExecutionState.with_stepStates
       (StepStates.assign stepId
          (spread (default StepState.noFields current) state)
          (ExecutionState.stepStates e)) e)) ;;
  onExecutionState (fun e =>
    let activeSteps := ExecutionState.activeSteps e in
    if bool_decide (PartialStepState.status state = Some StepStatus.running)
    then
      if negb (includes activeSteps stepId)
      then ExecutionState.with_activeSteps (activeSteps ++ [stepId]) e
      else e
    else ExecutionState.with_activeSteps (spliceOut stepId activeSteps) e) ;;
  updateProgress ;;
  touch.

Definition setOutput (key : string) (value : JsValue) : M unit :=
  onExecutionState (fun e =>
    ExecutionState.with_outputs
      (Some (Bag.set key value
               (default Bag.empty (ExecutionState.outputs e)))) e) ;;
  touch.

(** ** Execution management ([Workflow.ts], lines 420-456) *)

Definition start : M unit :=
  updateStatus WorkflowStatus.running ;;
  updateProgress.
Definition pause : M unit := updateStatus WorkflowStatus.paused.
Definition resume : M unit := updateStatus WorkflowStatus.running.

(** [{ ...this._data.executionState.outputs, ...outputs }]: a new object
    with the own properties of both, where the keys of the argument win. *)
Definition complete (outputs : option (gmap string JsValue)) : M unit :=
  match outputs with
  | Some o =>
      onExecutionState (fun e =>
        ExecutionState.with_outputs
          (Some (Bag.mk
                   (o ∪ Bag.own
                          (default Bag.empty (ExecutionState.outputs e)))
                   false)) e)
  | None => ret tt
  end ;;
  updateStatus WorkflowStatus.completed.

Definition cancel : M unit := updateStatus WorkflowStatus.cancelled.

End Methods.

(** ** Sample workflows *)

Definition mkStep (stepId : string) (deps : list string) : WorkflowStep.t :=
  WorkflowStep.mk stepId stepId StepType.task deps [] None None.

Definition inStatus (s : StepStatus.t) : StepState.t :=
  StepState.mk (Some s) None None None (Some 0) None None.

Definition zeroProgress : Progress.t := Progress.mk 0 0 0 0 0%float.

(** A workflow as [Workflow.create] leaves it, with the given steps,
    concurrency limit, run status, active steps and step states. *)
Definition mkWorkflow (steps : list WorkflowStep.t) (limit : option Z)
    (status : WorkflowStatus.t) (active : list string)
    (stepStates : gmap string StepState.t) : WorkflowType.t :=
  WorkflowType.mk "wf-1" "Untitled Workflow"
    (WorkflowDefinition.mk steps "" [] FlowType.dag limit)
    (ExecutionState.mk status zeroProgress None None None None active []
       (StepStates.mk stepStates None) None None)
    (Metadata.mk 1 1 []).

Definition sampleClock (n : nat) : Z := 1700000000000 + Z.of_nat n.

(** ** The reader methods as functions of [_data] *)

Definition stepsOf (d : WorkflowType.t) : list WorkflowStep.t :=
  WorkflowDefinition.steps (WorkflowType.definition d).

(** The object [stepStates]. *)
Definition storeOf (d : WorkflowType.t) : StepStates.t :=
  ExecutionState.stepStates (WorkflowType.executionState d).

(** The state records: the own properties of [stepStates]. *)
Definition stepStatesOf (d : WorkflowType.t) : gmap string StepState.t :=
  StepStates.own (storeOf d).

(** [stepStates[stepId]] *)
Definition stateOf (d : WorkflowType.t) (stepId : string)
    : option StepState.t :=
  StepStates.lookup (storeOf d) stepId.

Definition isCompleted (d : WorkflowType.t) (depId : string) : bool :=
  match stateOf d depId with
  | Some st => bool_decide (StepState.status st = Some StepStatus.completed)
  | None => false
  end.

Definition findStep (d : WorkflowType.t) (stepId : string)
    : option WorkflowStep.t :=
  List.find (fun step => bool_decide (WorkflowStep.id step = stepId))
    (stepsOf d).

Definition stepReady (d : WorkflowType.t) (stepId : string) : bool :=
  match findStep d stepId with
  | Some step => forallb (isCompleted d) (WorkflowStep.dependsOn step)
  | None => false
  end.

Definition eligible (d : WorkflowType.t) (step : WorkflowStep.t) : bool :=
  notStartedYet (stateOf d (WorkflowStep.id step))
  && stepReady d (WorkflowStep.id step).

Definition readyIds (d : WorkflowType.t) : list string :=
  List.map WorkflowStep.id (List.filter (eligible d) (stepsOf d)).

(** A computation that only reads: it returns a function of [_data] and
    hands the state back as it was. *)
Definition reads {A} (m : M A) (f : WorkflowType.t -> A) : Prop :=
  forall e, m e = (f (_data e), e).

(** ** Variations of a workflow used to compare two runs *)

(** The same workflow with another run-level status. *)
Definition setRunStatus (status : WorkflowStatus.t) (d : WorkflowType.t)
    : WorkflowType.t :=
  WorkflowType.with_executionState
    (ExecutionState.with_status status (WorkflowType.executionState d)) d.

(** The same workflow with another [maxConcurrency] and other
    [activeSteps]. *)
Definition setConcurrency (limit : option Z) (active : list string)
    (d : WorkflowType.t) : WorkflowType.t :=
  WorkflowType.with_definition
    (WorkflowDefinition.with_maxConcurrency limit (WorkflowType.definition d))
    (WorkflowType.with_executionState
       (ExecutionState.with_activeSteps active (WorkflowType.executionState d))
       d).

(** The same workflow with the [condition] of every step replaced. *)
Definition setConditions (guards : WorkflowStep.t -> option Condition.t)
    (d : WorkflowType.t) : WorkflowType.t :=
  WorkflowType.with_definition
    (WorkflowDefinition.with_steps
       (List.map (fun step => WorkflowStep.with_condition (guards step) step)
          (stepsOf d))
       (WorkflowType.definition d)) d.

(** Scenario A of the specification: S1 -> {S2, S3} -> S4. *)
Definition diamond : list WorkflowStep.t :=
  [mkStep "S1" []; mkStep "S2" ["S1"]; mkStep "S3" ["S1"];
   mkStep "S4" ["S2"; "S3"]].

(** One step without dependencies and without a state record. *)
Definition freshRun : Env :=
  mkEnv (mkWorkflow [mkStep "S1" []] None WorkflowStatus.draft [] ∅) 0.

(** Step B depends on step A only, and A was skipped. *)
Definition afterSkip : Env :=
  mkEnv (mkWorkflow [mkStep "A" []; mkStep "B" ["A"]] None
           WorkflowStatus.running []
           {[ "A" := inStatus StepStatus.skipped;
              "B" := inStatus StepStatus.pending ]}) 0.

(** A pending step whose guard is the expression [false]. *)
Definition guardedStep : WorkflowStep.t :=
  WorkflowStep.mk "G" "guarded" StepType.task [] []
    (Some (Condition.mk (Some "false") None)) None.

Definition guardedRun : Env :=
  mkEnv (mkWorkflow [guardedStep] None WorkflowStatus.running []
           {[ "G" := inStatus StepStatus.pending ]}) 0.

(** Scenario D of the specification: [maxConcurrency: 2] and three
    independent steps, none of them active. *)
Definition threeIndependent : Env :=
  mkEnv (mkWorkflow [mkStep "P" []; mkStep "Q" []; mkStep "R" []] (Some 2)
           WorkflowStatus.running []
           {[ "P" := inStatus StepStatus.pending;
              "Q" := inStatus StepStatus.pending;
              "R" := inStatus StepStatus.pending ]}) 0.

(** ** More sample runs *)

(** A run that has completed, with its single step completed. *)
Definition finishedRun : Env :=
  mkEnv (mkWorkflow [mkStep "S1" []] None WorkflowStatus.completed []
           {[ "S1" := inStatus StepStatus.completed ]}) 0.

(** Two steps, the first of them completed. *)
Definition halfDone : Env :=
  mkEnv (mkWorkflow [mkStep "S1" []; mkStep "S2" ["S1"]] None
           WorkflowStatus.running []
           {[ "S1" := inStatus StepStatus.completed;
              "S2" := inStatus StepStatus.pending ]}) 0.

(** A workflow without any step. *)
Definition emptyGraph : Env :=
  mkEnv (mkWorkflow [] None WorkflowStatus.running [] ∅) 0.


(** Scenario A after S1 has completed. *)
Definition diamondRun : Env :=
  mkEnv (mkWorkflow diamond None WorkflowStatus.running []
           {[ "S1" := inStatus StepStatus.completed ]}) 0.

Definition statusOf (e : Env) : WorkflowStatus.t :=
  ExecutionState.status (WorkflowType.executionState (_data e)).

Definition progressOf (e : Env) : Progress.t :=
  ExecutionState.progress (WorkflowType.executionState (_data e)).

(** The own properties of the output bag, none when [outputs] is still
    [undefined]. *)
Definition outputsOf (e : Env) : gmap string JsValue :=
  Bag.own
    (default Bag.empty
       (ExecutionState.outputs (WorkflowType.executionState (_data e)))).

(** ** The other methods of the class ([Workflow.ts]) *)

Definition withCurrentStep (x : option string) (e : ExecutionState.t)
    : ExecutionState.t :=
  ExecutionState.mk (ExecutionState.status e) (ExecutionState.progress e)
    (ExecutionState.scheduledAt e) (ExecutionState.startedAt e)
    (ExecutionState.completedAt e) x (ExecutionState.activeSteps e)
    (ExecutionState.waitingSteps e) (ExecutionState.stepStates e)
    (ExecutionState.variables e) (ExecutionState.outputs e).

Definition withVariables (x : option Bag.t)
    (e : ExecutionState.t) : ExecutionState.t :=
  ExecutionState.mk (ExecutionState.status e) (ExecutionState.progress e)
    (ExecutionState.scheduledAt e) (ExecutionState.startedAt e)
    (ExecutionState.completedAt e) (ExecutionState.currentStep e)
    (ExecutionState.activeSteps e) (ExecutionState.waitingSteps e)
    (ExecutionState.stepStates e) x (ExecutionState.outputs e).

(** An argument of type [any] as [fail] uses it: whether it is truthy,
    and the string [String(error)] (taken to return). *)
Record ErrorValue : Type := mkErrorValue {
  isTruthy : bool;
  asString : string
}.

(** [if (!l.includes(x)) l.push(x)] *)
Definition pushIfAbsent (x : string) (l : list string) : list string :=
  if negb (includes l x) then l ++ [x] else l.

Section MoreMethods.

Variable clock : nat -> Z.

(** [setCurrentStep] (lines 228-234) *)
Definition setCurrentStep (stepId : string) : M unit :=
  onExecutionState (withCurrentStep (Some stepId)) ;;
  onExecutionState (fun e =>
    if negb (includes (ExecutionState.activeSteps e) stepId)
    then ExecutionState.with_activeSteps
           (ExecutionState.activeSteps e ++ [stepId]) e
    else e) ;;
  touch clock.

(** [setVariable] (lines 268-274) *)
Definition setVariable (key : string) (value : JsValue) : M unit :=
  onExecutionState (fun e =>
    withVariables
      (Some (Bag.set key value
               (default Bag.empty (ExecutionState.variables e)))) e) ;;
  touch clock.

(** [getVariable] (lines 276-278): [variables?.[key]] *)
Definition getVariable (key : string) : M Bag.read :=
  let* d := this in
  ret (match ExecutionState.variables (WorkflowType.executionState d) with
       | Some vars => Bag.get vars key
       | None => Bag.Undefined
       end).

(** [fail] (lines 443-452); an omitted [error] is [undefined], which is
    falsy. *)
Definition fail (error : option ErrorValue) : M unit :=
  match error with
  | Some err =>
      when (isTruthy err)
        (let* now := Date_now clock in
         onMetadata (fun m =>
           Metadata.with_auditLog
             (Metadata.auditLog m ++
              [AuditEntry.mk now "workflow_failed"
                 (Some {[ "error" := JsString (asString err) ]})]) m))
  | None => ret tt
  end ;;
  updateStatus clock WorkflowStatus.failed.

End MoreMethods.

(** ** Utility methods (lines 494-535) *)

Definition hasStatus (s : WorkflowStatus.t) : M bool :=
  let* d := this in
  ret (bool_decide
         (ExecutionState.status (WorkflowType.executionState d) = s)).

Definition isRunning : M bool := hasStatus WorkflowStatus.running.
Definition isPaused : M bool := hasStatus WorkflowStatus.paused.

(** [['draft', 'pending'].includes(this.status)] *)
Definition canStart : M bool :=
  let* d := this in
  ret (bool_decide
         (ExecutionState.status (WorkflowType.executionState d)
          ∈ [WorkflowStatus.draft; WorkflowStatus.pending])).

Definition canPause : M bool := hasStatus WorkflowStatus.running.
Definition canResume : M bool := hasStatus WorkflowStatus.paused.

(** [getDuration]: the difference when [startedAt] and [completedAt] are
    both truthy, [undefined] otherwise. *)
Definition getDuration : M (option Z) :=
  let* d := this in
  ret (match ExecutionState.startedAt (WorkflowType.executionState d),
             ExecutionState.completedAt (WorkflowType.executionState d) with
       | Some startedAt, Some completedAt =>
           if negb (bool_decide (startedAt = 0))
              && negb (bool_decide (completedAt = 0))
           then Some (completedAt - startedAt)
           else None
       | _, _ => None
       end).

(** ** Execution management of [WorkflowPure.ts] (lines 186-200, 282-296) *)
Module PureExecution.
Section Clock.

Variable clock : nat -> Z.

Definition start : M unit :=
  onExecutionState (ExecutionState.with_status WorkflowStatus.running) ;;
  (let* now := Date_now clock in
   onExecutionState (ExecutionState.with_startedAt (Some now))) ;;
  touch clock.

Definition pause : M unit :=
  onExecutionState (ExecutionState.with_status WorkflowStatus.paused) ;;
  touch clock.

Definition resume : M unit :=
  onExecutionState (ExecutionState.with_status WorkflowStatus.running) ;;
  touch clock.

(** [this.status === 'draft' || this.status === 'paused'] *)
Definition canStart : M bool :=
  let* d := this in
  ret (bool_decide
         (ExecutionState.status (WorkflowType.executionState d)
          = WorkflowStatus.draft)
       || bool_decide
            (ExecutionState.status (WorkflowType.executionState d)
             = WorkflowStatus.paused)).

End Clock.
End PureExecution.

(** ** Sequences of calls *)

(** One call of a state-changing method of [Workflow.ts]. *)
Inductive Call : Type :=
  | CallUpdateStatus (status : WorkflowStatus.t)
  | CallUpdateProgress
  | CallSetCurrentStep (stepId : string)
  | CallUpdateStepState (stepId : string) (state : PartialStepState.t)
  | CallSetVariable (key : string) (value : JsValue)
  | CallSetOutput (key : string) (value : JsValue)
  | CallStart
  | CallPause
  | CallResume
  | CallComplete (outputs : option (gmap string JsValue))
  | CallFail (error : option ErrorValue)
  | CallCancel.

Definition call (clock : nat -> Z) (c : Call) : M unit :=
  match c with
  | CallUpdateStatus status => updateStatus clock status
  | CallUpdateProgress => updateProgress clock
  | CallSetCurrentStep stepId => setCurrentStep clock stepId
  | CallUpdateStepState stepId state => updateStepState clock stepId state
  | CallSetVariable key value => setVariable clock key value
  | CallSetOutput key value => setOutput clock key value
  | CallStart => start clock
  | CallPause => pause clock
  | CallResume => resume clock
  | CallComplete outputs => complete clock outputs
  | CallFail error => fail clock error
  | CallCancel => cancel clock
  end.

(** The calls of the list, one after the other. *)
Fixpoint calls (clock : nat -> Z) (cs : list Call) : M unit :=
  match cs with
  | [] => ret tt
  | c :: cs' => call clock c ;; calls clock cs'
  end.

Definition activeStepsOf (e : Env) : list string :=
  ExecutionState.activeSteps (WorkflowType.executionState (_data e)).

Definition startedAtOf (e : Env) : option Z :=
  ExecutionState.startedAt (WorkflowType.executionState (_data e)).

Definition completedAtOf (e : Env) : option Z :=
  ExecutionState.completedAt (WorkflowType.executionState (_data e)).

Definition auditLogOf (e : Env) : list AuditEntry.t :=
  Metadata.auditLog (WorkflowType.metadata (_data e)).

(** The number of occurrences of an id in a list of ids. *)
Definition occurrences (i : string) (l : list string) : nat :=
  length (List.filter (fun x => bool_decide (x = i)) l).

(** What a call does to [activeSteps]. *)
Definition activeEffect (c : Call) (l : list string) : list string :=
  match c with
  | CallSetCurrentStep stepId => pushIfAbsent stepId l
  | CallUpdateStepState stepId state =>
      if bool_decide (PartialStepState.status state = Some StepStatus.running)
      then pushIfAbsent stepId l
      else spliceOut stepId l
  | _ => l
  end.

(** What a call does to [stepStates]. *)
Definition stepStatesEffect (c : Call) (s : StepStates.t) : StepStates.t :=
  match c with
  | CallUpdateStepState stepId state =>
      StepStates.assign stepId
        (spread (default defaultStepState (StepStates.lookup s stepId)) state)
        s
  | _ => s
  end.

(** The snapshot agrees with the step states. *)
Definition inSync (e : Env) : Prop :=
  progressOf e = aggregate (stepsOf (_data e)) (stepStatesOf (_data e)).

(** Whether a call is an [updateStepState] for [stepId]. *)
Definition updates (stepId : string) (c : Call) : Prop :=
  match c with
  | CallUpdateStepState stepId' _ => stepId' = stepId
  | _ => False
  end.

#[global] Arguments StepStates.lookup : simpl never.
#[global] Arguments StepStates.assign : simpl never.
#[global] Arguments Bag.get : simpl never.
#[global] Arguments Bag.set : simpl never.

(** ** The object [stepStates] *)

Lemma lookup_assign_eq (s : StepStates.t) (key : string) (r : StepState.t) :
  StepStates.lookup (StepStates.assign key r s) key = Some r.
Proof.
  unfold StepStates.lookup, StepStates.assign.
  destruct (bool_decide (key = "__proto__")) eqn:Hkey; cbn [andb].
  - apply bool_decide_eq_true in Hkey. subst key.
    destruct (bool_decide (StepStates.own s !! "__proto__" = None)) eqn:Hown.
    + apply bool_decide_eq_true in Hown. cbn [StepStates.own].
      rewrite Hown. reflexivity.
    + cbn [StepStates.own]. now rewrite lookup_insert_eq.
  - cbn [StepStates.own]. now rewrite lookup_insert_eq.
Qed.

Lemma own_assign_ne (s : StepStates.t) (key other : string)
    (r : StepState.t) :
  other <> key ->
  StepStates.own (StepStates.assign key r s) !! other
  = StepStates.own s !! other.
Proof.
  intros Hne. unfold StepStates.assign.
  destruct (_ && _); cbn [StepStates.own]; [reflexivity|].
  now rewrite lookup_insert_ne.
Qed.

Lemma own_assign_eq (s : StepStates.t) (key : string) (r : StepState.t) :
  key <> "__proto__" ->
  StepStates.own (StepStates.assign key r s) = <[key := r]> (StepStates.own s).
Proof.
  intros Hkey. unfold StepStates.assign.
  now rewrite (bool_decide_eq_false_2 _ Hkey).
Qed.

Lemma proto_assign (s : StepStates.t) (key : string) (r : StepState.t) :
  key <> "__proto__" ->
  StepStates.proto (StepStates.assign key r s) = StepStates.proto s.
Proof.
  intros Hkey. unfold StepStates.assign.
  now rewrite (bool_decide_eq_false_2 _ Hkey).
Qed.

Lemma lookup_assign_ne (s : StepStates.t) (key other : string)
    (r : StepState.t) :
  key <> "__proto__" -> other <> key ->
  StepStates.lookup (StepStates.assign key r s) other
  = StepStates.lookup s other.
Proof.
  intros Hkey Hne. unfold StepStates.lookup, StepStates.inherited.
  rewrite own_assign_ne by done. now rewrite proto_assign.
Qed.

Lemma assign_assign (s : StepStates.t) (key : string) (r1 r2 : StepState.t) :
  StepStates.assign key r2 (StepStates.assign key r1 s)
  = StepStates.assign key r2 s.
Proof.
  unfold StepStates.assign.
  destruct (bool_decide (key = "__proto__")); cbn [andb].
  - destruct (bool_decide (StepStates.own s !! key = None)) eqn:Hown;
      cbn [StepStates.own StepStates.proto].
    + now rewrite Hown.
    + rewrite (bool_decide_eq_false_2
                 (<[key := r1]> (StepStates.own s) !! key = None))
        by now rewrite lookup_insert_eq.
      now rewrite insert_insert_eq.
  - cbn [StepStates.own StepStates.proto]. now rewrite insert_insert_eq.
Qed.

Lemma is_Some_own_assign (s : StepStates.t) (key other : string)
    (r : StepState.t) :
  is_Some (StepStates.own s !! other) ->
  is_Some (StepStates.own (StepStates.assign key r s) !! other).
Proof.
  intros His. unfold StepStates.assign.
  destruct (_ && _); cbn [StepStates.own]; [done|].
  destruct (decide (other = key)) as [->|Hne].
  - rewrite lookup_insert_eq. eauto.
  - now rewrite lookup_insert_ne.
Qed.

(** What [updateStepState] leaves in [stepStates]. *)
Lemma stepStatesEffect_lookup (s : StepStates.t) (stepId : string)
    (state : PartialStepState.t) :
  StepStates.lookup
    (stepStatesEffect (CallUpdateStepState stepId state) s) stepId
  = Some (spread (default defaultStepState (StepStates.lookup s stepId))
            state).
Proof. cbn [stepStatesEffect]. apply lookup_assign_eq. Qed.

(** ** The reader methods leave the state alone *)

Lemma reads_ret {A} (a : A) : reads (ret a) (fun _ => a).
Proof. intros e. reflexivity. Qed.

Lemma reads_bind {A B} (m : M A) (k : A -> M B) f g :
  reads m f -> (forall a, reads (k a) (g a)) ->
  reads (bind m k) (fun d => g (f d) d).
Proof.
  intros Hm Hk e. unfold bind. rewrite Hm. cbn. apply Hk.
Qed.

Lemma reads_this : reads this (fun d => d).
Proof. intros e. reflexivity. Qed.

Lemma reads_getStep stepId :
  reads (getStep stepId) (fun d => findStep d stepId).
Proof. intros e. reflexivity. Qed.

Lemma reads_getStepState stepId :
  reads (getStepState stepId) (fun d => stateOf d stepId).
Proof. intros e. reflexivity. Qed.

Lemma reads_dependsOnLoop deps :
  reads (dependsOnLoop deps) (fun d => forallb (isCompleted d) deps).
Proof.
  induction deps as [|depId rest IH]; intros e; [reflexivity|].
  cbn [dependsOnLoop forallb]. unfold bind.
  rewrite (reads_getStepState depId e). cbn [fst snd].
  unfold isCompleted at 1.
  destruct (stateOf (_data e) depId) as [st|]; [|reflexivity].
  destruct (decide (StepState.status st = Some StepStatus.completed)) as [Hc|Hc].
  - rewrite (bool_decide_eq_false_2 _ (fun H => H Hc)).
    rewrite (bool_decide_eq_true_2 _ Hc). cbn. apply IH.
  - rewrite (bool_decide_eq_true_2 _ Hc).
    rewrite (bool_decide_eq_false_2 _ Hc). reflexivity.
Qed.

Lemma reads_isStepReady stepId :
  reads (isStepReady stepId) (fun d => stepReady d stepId).
Proof.
  intros e. unfold isStepReady, bind, stepReady.
  rewrite (reads_getStep stepId e). cbn [fst snd].
  destruct (findStep (_data e) stepId); [|reflexivity].
  apply reads_dependsOnLoop.
Qed.

Lemma reads_filterM {A} (p : A -> M bool) (q : WorkflowType.t -> A -> bool)
    (l : list A) :
  (forall x, reads (p x) (fun d => q d x)) ->
  reads (filterM p l) (fun d => List.filter (q d) l).
Proof.
  intros Hp. induction l as [|x l IH]; intros e; [reflexivity|].
  cbn [filterM List.filter]. unfold bind.
  rewrite (Hp x e). cbn [fst snd]. rewrite (IH e). reflexivity.
Qed.

Lemma getReadySteps_run e : getReadySteps e = (readyIds (_data e), e).
Proof.
  unfold getReadySteps, bind. cbn [this fst snd].
  rewrite (reads_filterM _ eligible); [reflexivity|].
  intros step e'. unfold bind, eligible.
  rewrite (reads_getStepState _ e'). cbn [fst snd].
  destruct (notStartedYet _); [|reflexivity].
  apply reads_isStepReady.
Qed.

Lemma evalM_getReadySteps e : evalM getReadySteps e = readyIds (_data e).
Proof. unfold evalM. now rewrite getReadySteps_run. Qed.

Lemma forallb_isCompleted d deps :
  forallb (isCompleted d) deps = true <->
  forall depId, In depId deps ->
    exists st, stateOf d depId = Some st
               /\ StepState.status st = Some StepStatus.completed.
Proof.
  rewrite forallb_forall. split; intros H depId Hin.
  - specialize (H depId Hin). unfold isCompleted in H.
    destruct (stateOf d depId) as [st|]; [|discriminate].
    exists st. split; [reflexivity|]. now apply bool_decide_eq_true in H.
  - destruct (H depId Hin) as (st & Hst & Hc). unfold isCompleted.
    rewrite Hst. now apply bool_decide_eq_true.
Qed.

Lemma In_readyIds d stepId :
  In stepId (readyIds d) <->
  exists step, In step (stepsOf d) /\ WorkflowStep.id step = stepId
               /\ eligible d step = true.
Proof.
  unfold readyIds. rewrite in_map_iff. split.
  - intros (step & Hid & Hin). apply filter_In in Hin as [Hin He]. eauto.
  - intros (step & Hin & Hid & He). exists step. split; [done|].
    apply filter_In. auto.
Qed.

(** ** The two resolvers agree *)

Lemma reads_every deps :
  reads (WorkflowPure.every deps) (fun d => forallb (isCompleted d) deps).
Proof.
  induction deps as [|depId rest IH]; intros e; [reflexivity|].
  cbn [WorkflowPure.every forallb]. unfold bind.
  rewrite (reads_getStepState depId e).
  change (WorkflowPure.completedState (stateOf (_data e) depId))
    with (isCompleted (_data e) depId).
  destruct (isCompleted (_data e) depId); [apply IH|reflexivity].
Qed.

Lemma filter_filter_andb {A} (f g : A -> bool) (l : list A) :
  List.filter g (List.filter f l) = List.filter (fun x => g x && f x) l.
Proof.
  induction l as [|x l IH]; [reflexivity|]. cbn.
  destruct (f x); cbn; destruct (g x); cbn; now rewrite IH.
Qed.

Lemma WorkflowPure_getReadySteps_run e :
  WorkflowPure.getReadySteps WorkflowStep.dependsOn e
  = (readyIds (_data e), e).
Proof.
  unfold WorkflowPure.getReadySteps, bind. cbn [this].
  rewrite (reads_filterM _ (fun d step => stepReady d (WorkflowStep.id step))).
  - rewrite (reads_filterM _
               (fun d step =>
                  notStartedYet (stateOf d (WorkflowStep.id step)))).
    + cbn [_data ret]. unfold readyIds. now rewrite filter_filter_andb.
    + intros step e'. reflexivity.
  - intros step e'. unfold WorkflowPure.isStepReady, bind, stepReady.
    rewrite (reads_getStep _ e').
    destruct (findStep (_data e') (WorkflowStep.id step)); [|reflexivity].
    apply reads_every.
Qed.

(** ** Properties of the ready-step resolver *)

Lemma readyIds_ext d1 d2 :
  stepsOf d1 = stepsOf d2 -> storeOf d1 = storeOf d2 ->
  readyIds d1 = readyIds d2.
Proof.
  intros Hs Hst. unfold readyIds. rewrite Hs. f_equal.
  apply filter_ext. intros step.
  unfold eligible, stepReady, findStep, isCompleted, stateOf.
  rewrite Hs, Hst. reflexivity.
Qed.

Lemma findStep_setConditions guards d stepId :
  findStep (setConditions guards d) stepId
  = (fun step => WorkflowStep.with_condition (guards step) step)
      <$> findStep d stepId.
Proof.
  unfold findStep. change (stepsOf (setConditions guards d))
    with (List.map (fun step => WorkflowStep.with_condition (guards step) step)
            (stepsOf d)).
  induction (stepsOf d) as [|step l IH]; [reflexivity|].
  cbn [List.map List.find WorkflowStep.with_condition WorkflowStep.id].
  destruct (bool_decide (WorkflowStep.id step = stepId)); [reflexivity|].
  apply IH.
Qed.

Lemma eligible_setConditions guards d step :
  eligible (setConditions guards d)
    (WorkflowStep.with_condition (guards step) step)
  = eligible d step.
Proof.
  unfold eligible, stepReady. rewrite findStep_setConditions.
  cbn [WorkflowStep.with_condition WorkflowStep.id].
  destruct (findStep d (WorkflowStep.id step)); reflexivity.
Qed.

Lemma readyIds_setConditions guards d :
  readyIds (setConditions guards d) = readyIds d.
Proof.
  unfold readyIds.
  change (stepsOf (setConditions guards d))
    with (List.map (fun step => WorkflowStep.with_condition (guards step) step)
            (stepsOf d)).
  induction (stepsOf d) as [|step l IH]; [reflexivity|].
  cbn [List.map List.filter]. rewrite eligible_setConditions.
  destruct (eligible d step); cbn [List.map]; rewrite IH; reflexivity.
Qed.

Lemma stepReady_blocked d step depId :
  findStep d (WorkflowStep.id step) = Some step ->
  In depId (WorkflowStep.dependsOn step) ->
  ~ (exists st, stateOf d depId = Some st
                /\ StepState.status st = Some StepStatus.completed) ->
  stepReady d (WorkflowStep.id step) = false.
Proof.
  intros Hf Hin Hne. unfold stepReady. rewrite Hf.
  apply not_true_is_false. intros Hall.
  apply forallb_isCompleted with (depId := depId) in Hall; done.
Qed.

(** C8. [getReadySteps] has no side effect and is idempotent: a call hands
    back the state it was given ([_data] and the clock untouched), and a
    second call on that state returns the same list as the first. The same
    holds for the resolver of [WorkflowPure.ts], which returns the same
    list. *)
Theorem getReadySteps_no_side_effect_idempotent (e : Env) :
  execM getReadySteps e = e
  /\ _data (execM getReadySteps e) = _data e
  /\ evalM getReadySteps (execM getReadySteps e) = evalM getReadySteps e
  /\ evalM (let* first := getReadySteps in
            let* second := getReadySteps in
            ret (bool_decide (first = second))) e = true
  /\ execM (WorkflowPure.getReadySteps WorkflowStep.dependsOn) e = e
  /\ evalM (WorkflowPure.getReadySteps WorkflowStep.dependsOn)
       (execM (WorkflowPure.getReadySteps WorkflowStep.dependsOn) e)
     = evalM (WorkflowPure.getReadySteps WorkflowStep.dependsOn) e.
Proof.
  assert (Hexec : execM getReadySteps e = e).
  { unfold execM. now rewrite getReadySteps_run. }
  assert (Hpure : execM (WorkflowPure.getReadySteps WorkflowStep.dependsOn) e
                  = e).
  { unfold execM. now rewrite WorkflowPure_getReadySteps_run. }
  repeat split.
  - exact Hexec.
  - now rewrite Hexec.
  - now rewrite Hexec.
  - unfold evalM, bind. rewrite !getReadySteps_run. cbn.
    now apply bool_decide_eq_true.
  - exact Hpure.
  - now rewrite Hpure.
Qed.

(** C9. The ready list does not depend on the run-level status: replacing
    [executionState.status] by any status leaves the result of
    [getReadySteps] unchanged, so under every run status (paused and
    terminal ones included) a step whose record is pending and whose
    dependencies are all completed is reported as ready. *)
Theorem getReadySteps_ignores_run_status
    (d : WorkflowType.t) (status : WorkflowStatus.t) (n : nat) :
  evalM getReadySteps (mkEnv (setRunStatus status d) n)
  = evalM getReadySteps (mkEnv d n)
  /\ forall step st,
       evalM (getStep (WorkflowStep.id step)) (mkEnv d n) = Some step ->
       evalM (getStepState (WorkflowStep.id step)) (mkEnv d n) = Some st ->
       StepState.status st = Some StepStatus.pending ->
       (forall depId, In depId (WorkflowStep.dependsOn step) ->
          exists dst, evalM (getStepState depId) (mkEnv d n) = Some dst
                      /\ StepState.status dst = Some StepStatus.completed) ->
       In (WorkflowStep.id step)
          (evalM getReadySteps (mkEnv (setRunStatus status d) n)).
Proof.
  assert (Heq : evalM getReadySteps (mkEnv (setRunStatus status d) n)
                = evalM getReadySteps (mkEnv d n)).
  { rewrite !evalM_getReadySteps. now apply readyIds_ext. }
  split; [exact Heq|].
  intros step st Hstep Hst Hpending Hdeps. rewrite Heq.
  rewrite evalM_getReadySteps. cbn [_data].
  change (findStep d (WorkflowStep.id step) = Some step) in Hstep.
  change (stateOf d (WorkflowStep.id step) = Some st) in Hst.
  apply In_readyIds. exists step. split; [|split; [reflexivity|]].
  - unfold findStep in Hstep. now apply find_some in Hstep.
  - unfold eligible, stepReady. rewrite Hst, Hstep. cbn [notStartedYet].
    rewrite (bool_decide_eq_true_2 _ Hpending). cbn.
    now apply forallb_isCompleted.
Qed.

Lemma getReadySteps_ignores_run_status_witness :
  In "S2" (evalM getReadySteps
             (mkEnv (setRunStatus WorkflowStatus.cancelled
                       (mkWorkflow diamond None WorkflowStatus.running []
                          {[ "S1" := inStatus StepStatus.completed;
                             "S2" := inStatus StepStatus.pending ]})) 0)).
Proof.
  apply (proj2 (getReadySteps_ignores_run_status
                  (mkWorkflow diamond None WorkflowStatus.running []
                     {[ "S1" := inStatus StepStatus.completed;
                        "S2" := inStatus StepStatus.pending ]})
                  WorkflowStatus.cancelled 0)
          (mkStep "S2" ["S1"]) (inStatus StepStatus.pending)).
  - reflexivity.
  - reflexivity.
  - reflexivity.
  - intros depId [<-|[]]. exists (inStatus StepStatus.completed).
    split; reflexivity.
Defined.




(** C1 (as amended). The resolver reads no guard and writes no status:
    [getReadySteps] returns the same list whatever the [condition] of the
    steps, and it leaves the state as it was (no step becomes skipped).
    The id of a step is returned only if every id in the [dependsOn] of
    the step that [getStep] finds under it has a record with status
    completed: a dependency that has no record, or whose record has any
    other status (skipped, for one), keeps the id out of the result of this
    resolver and of the one of [WorkflowPure.ts]. *)
Theorem getReadySteps_ignores_guards_and_skips (e : Env) :
  (forall guards,
      evalM getReadySteps (mkEnv (setConditions guards (_data e)) (ticks e))
      = evalM getReadySteps e)
  /\ execM getReadySteps e = e
  /\ forall step depId,
       evalM (getStep (WorkflowStep.id step)) e = Some step ->
       In depId (WorkflowStep.dependsOn step) ->
       ~ (exists st, evalM (getStepState depId) e = Some st
                     /\ StepState.status st = Some StepStatus.completed) ->
       ~ In (WorkflowStep.id step) (evalM getReadySteps e)
       /\ ~ In (WorkflowStep.id step)
              (evalM (WorkflowPure.getReadySteps WorkflowStep.dependsOn) e).
Proof.
  split; [|split].
  - intros guards. rewrite !evalM_getReadySteps. apply readyIds_setConditions.
  - unfold execM. now rewrite getReadySteps_run.
  - intros step depId Hstep Hin Hne.
    assert (Hsame : evalM (WorkflowPure.getReadySteps WorkflowStep.dependsOn) e
                    = evalM getReadySteps e).
    { unfold evalM. now rewrite WorkflowPure_getReadySteps_run,
                                getReadySteps_run. }
    rewrite Hsame. cut (~ In (WorkflowStep.id step) (evalM getReadySteps e));
      [tauto|].
    rewrite evalM_getReadySteps. intros Hready.
    apply In_readyIds in Hready as (step' & _ & Hid & Hel).
    unfold eligible in Hel. apply andb_true_iff in Hel as [_ Hel].
    rewrite Hid in Hel.
    rewrite (stepReady_blocked (_data e) step depId) in Hel; done.
Qed.

Lemma getReadySteps_ignores_guards_and_skips_witness :
  ~ In "B" (evalM getReadySteps afterSkip)
  /\ ~ In "B" (evalM (WorkflowPure.getReadySteps WorkflowStep.dependsOn)
                 afterSkip).
Proof.
  apply (proj2 (proj2 (getReadySteps_ignores_guards_and_skips afterSkip))
           (mkStep "B" ["A"]) "A").
  - reflexivity.
  - left. reflexivity.
  - intros (st & Hst & Hc). injection Hst as <-. discriminate Hc.
Defined.

(** C1, the claim as stated fails on both counts: a pending step whose only
    dependency is skipped is not returned, and a pending step whose guard is
    [false] is returned as ready while its record stays pending. *)
Lemma skip_is_not_propagated :
  evalM (getStep "B") afterSkip = Some (mkStep "B" ["A"])
  /\ evalM (getStepState "B") afterSkip = Some (inStatus StepStatus.pending)
  /\ evalM (getStepState "A") afterSkip = Some (inStatus StepStatus.skipped)
  /\ ~ In "B" (evalM getReadySteps afterSkip)
  /\ WorkflowStep.condition guardedStep
     = Some (Condition.mk (Some "false") None)
  /\ In "G" (evalM getReadySteps guardedRun)
  /\ evalM (getStepState "G") (execM getReadySteps guardedRun)
     = Some (inStatus StepStatus.pending).
Proof.
  repeat split; try reflexivity.
  - vm_compute. intros [].
  - left. reflexivity.
Qed.

(** C4 (as amended). The resolver applies no concurrency budget: the result
    of [getReadySteps] is the same for every [maxConcurrency] and every
    [activeSteps], and with [maxConcurrency: 2] and three independent
    pending steps all three are returned. *)
Theorem getReadySteps_ignores_maxConcurrency
    (d : WorkflowType.t) (limit : option Z) (active : list string) (n : nat) :
  evalM getReadySteps (mkEnv (setConcurrency limit active d) n)
  = evalM getReadySteps (mkEnv d n)
  /\ evalM getReadySteps threeIndependent = ["P"; "Q"; "R"].
Proof.
  split; [|reflexivity].
  rewrite !evalM_getReadySteps. now apply readyIds_ext.
Qed.

(** C4, the claim as stated fails: with a budget of 2 - 0 the resolver
    returns three steps. *)
Lemma getReadySteps_exceeds_budget :
  WorkflowDefinition.maxConcurrency
    (WorkflowType.definition (_data threeIndependent)) = Some 2
  /\ ExecutionState.activeSteps
       (WorkflowType.executionState (_data threeIndependent)) = []
  /\ ~ (Z.of_nat (length (evalM getReadySteps threeIndependent))
        <= 2 - Z.of_nat (length (ExecutionState.activeSteps
             (WorkflowType.executionState (_data threeIndependent))))).
Proof.
  split; [reflexivity|]. split; [reflexivity|].
  vm_compute. intros H. now apply H.
Qed.

(** ** Properties of the progress aggregator *)

Lemma length_filter_Permutation {A} (f : A -> bool) (l1 l2 : list A) :
  l1 ≡ₚ l2 -> length (List.filter f l1) = length (List.filter f l2).
Proof.
  induction 1 as [|x l1 l2 _ IH|x y l|l1 l2 l3 _ IH1 _ IH2]; cbn.
  - reflexivity.
  - destruct (f x); cbn; now rewrite IH.
  - destruct (f x), (f y); reflexivity.
  - now rewrite IH1.
Qed.

(** The count that [updateProgress] takes over [Object.values] is the
    number of records of the map with that status. *)
Lemma countStatus_size (s : StepStatus.t) (m : gmap string StepState.t) :
  countStatus s m
  = size (filter (fun kv : string * StepState.t =>
                    StepState.status (snd kv) = Some s) m).
Proof.
  unfold countStatus. induction m as [|i x m Hi _ IH] using map_first_key_ind.
  - rewrite map_to_list_empty, map_filter_empty, map_size_empty. reflexivity.
  - rewrite (length_filter_Permutation _ _ (snd <$> (i, x) :: map_to_list m));
      [|now rewrite map_to_list_insert].
    cbn [fmap list_fmap List.filter snd].
    destruct (decide (StepState.status x = Some s)) as [Hs|Hs].
    + rewrite (bool_decide_eq_true_2 _ Hs). cbn [length].
      rewrite map_filter_insert_True by exact Hs.
      rewrite map_size_insert_None
        by (now apply map_lookup_filter_None_2; left).
      now rewrite <- IH.
    + rewrite (bool_decide_eq_false_2 _ Hs).
      rewrite map_filter_insert_not' by (intros; try exact Hs; congruence).
      exact IH.
Qed.

(** ** Properties of the state-changing methods *)

Ltac run_method :=
  unfold execM, evalM, statusOf, progressOf, outputsOf, stepStatesOf, stateOf,
    storeOf, stepsOf, setOutput, updateStepState, updateProgress, updateStatus, touch, when,
    onExecutionState, onMetadata, getStepState, Date_now, assign, this,
    bind, ret;
  cbn [fst snd _data ticks].

Ltac split_ifs :=
  repeat match goal with
         | |- context [if ?b then _ else _] => destruct b
         end.

Lemma updateStatus_sets_status clock e status :
  statusOf (execM (updateStatus clock status) e) = status.
Proof. run_method. split_ifs; reflexivity. Qed.

Lemma start_sets_running clock e :
  statusOf (execM (start clock) e) = WorkflowStatus.running.
Proof.
  unfold start. run_method. cbn. split_ifs; reflexivity.
Qed.

Lemma updateStepState_store clock e stepId state :
  storeOf (_data (execM (updateStepState clock stepId state) e))
  = stepStatesEffect (CallUpdateStepState stepId state) (storeOf (_data e)).
Proof.
  run_method. cbn [stepStatesEffect].
  destruct (StepStates.lookup
              (ExecutionState.stepStates
                 (WorkflowType.executionState (_data e))) stepId)
    as [st|] eqn:Hst.
  - rewrite bool_decide_eq_false_2 by discriminate. cbn. rewrite ?Hst.
    split_ifs; reflexivity.
  - rewrite bool_decide_eq_true_2 by reflexivity. cbn.
    rewrite lookup_assign_eq. cbn.
    split_ifs; cbn; now rewrite assign_assign.
Qed.

Lemma updateStepState_record clock e stepId state :
  evalM (getStepState stepId) (execM (updateStepState clock stepId state) e)
  = Some (spread (default defaultStepState (stateOf (_data e) stepId))
            state).
Proof.
  change (StepStates.lookup
            (storeOf (_data (execM (updateStepState clock stepId state) e)))
            stepId
          = Some (spread (default defaultStepState
                            (StepStates.lookup (storeOf (_data e)) stepId))
                    state)).
  rewrite updateStepState_store. apply stepStatesEffect_lookup.
Qed.

Lemma updateStepState_progress clock e stepId state :
  progressOf (execM (updateStepState clock stepId state) e)
  = aggregate (stepsOf (_data e))
      (stepStatesOf (_data (execM (updateStepState clock stepId state) e))).
Proof. run_method. split_ifs; reflexivity. Qed.

Lemma updateStepState_steps clock e stepId state :
  stepsOf (_data (execM (updateStepState clock stepId state) e))
  = stepsOf (_data e).
Proof. run_method. split_ifs; reflexivity. Qed.

Lemma percentOf_cases (completedSteps totalSteps : nat) :
  percentOf completedSteps totalSteps
  = if decide (totalSteps = 0%nat) then 0%float
    else (js_number completedSteps / js_number totalSteps * 100)%float.
Proof.
  unfold percentOf. destruct (decide (totalSteps = 0%nat)) as [->|Hne].
  - reflexivity.
  - rewrite bool_decide_eq_true_2 by lia. reflexivity.
Qed.

(** C2 (as amended). The state-changing methods check no lifecycle rule and
    raise nothing: from every current state, [updateStatus] stores the status
    it is given (so [start], [pause], [resume] and [cancel] always take
    effect), and [updateStepState] with a status stores that status in the
    record of the step. No status is absorbing. *)
Theorem status_updates_are_unchecked (clock : nat -> Z) (e : Env) :
  (forall status, statusOf (execM (updateStatus clock status) e) = status)
  /\ statusOf (execM (start clock) e) = WorkflowStatus.running
  /\ statusOf (execM (pause clock) e) = WorkflowStatus.paused
  /\ statusOf (execM (resume clock) e) = WorkflowStatus.running
  /\ statusOf (execM (cancel clock) e) = WorkflowStatus.cancelled
  /\ forall stepId state s,
       PartialStepState.status state = Some s ->
       exists st,
         evalM (getStepState stepId)
               (execM (updateStepState clock stepId state) e) = Some st
         /\ StepState.status st = Some s.
Proof.
  split; [apply updateStatus_sets_status|].
  split; [apply start_sets_running|].
  do 3 (split; [apply updateStatus_sets_status|]).
  intros stepId state s Hs. eexists. split; [apply updateStepState_record|].
  cbn [spread StepState.status]. rewrite Hs; reflexivity.
Qed.

Lemma status_updates_are_unchecked_witness :
  exists st,
    evalM (getStepState "S1")
          (execM (updateStepState sampleClock "S1"
                    (PartialStepState.of_status StepStatus.running))
                 finishedRun) = Some st
    /\ StepState.status st = Some StepStatus.running.
Proof.
  apply (proj2 (proj2 (proj2 (proj2 (proj2
           (status_updates_are_unchecked sampleClock finishedRun)))))
           "S1" (PartialStepState.of_status StepStatus.running)
           StepStatus.running).
  reflexivity.
Defined.

(** C2, the claim as stated fails: a completed run is moved back to running
    by [updateStatus], and its completed step is moved back to running by
    [updateStepState]; both calls change the state. *)
Lemma terminal_status_is_not_absorbing :
  statusOf finishedRun = WorkflowStatus.completed
  /\ statusOf (execM (updateStatus sampleClock WorkflowStatus.running)
                 finishedRun) = WorkflowStatus.running
  /\ execM (updateStatus sampleClock WorkflowStatus.running) finishedRun
     <> finishedRun
  /\ evalM (getStepState "S1") finishedRun
     = Some (inStatus StepStatus.completed)
  /\ evalM (getStepState "S1")
       (execM (updateStepState sampleClock "S1"
                 (PartialStepState.of_status StepStatus.running)) finishedRun)
     = Some (inStatus StepStatus.running)
  /\ execM (updateStepState sampleClock "S1"
              (PartialStepState.of_status StepStatus.running)) finishedRun
     <> finishedRun.
Proof.
  repeat split; try reflexivity.
  - intros H. apply (f_equal statusOf) in H. discriminate H.
  - intros H. apply (f_equal (evalM (getStepState "S1"))) in H.
    vm_compute in H. discriminate H.
Qed.

(** C5 (as amended). [updateProgress] stores the aggregate of the current
    step states: [totalSteps] is the number of steps of the definition, the
    three counters are the numbers of state records that are completed,
    failed and skipped, and [progressPercent] is (completed / total) * 100,
    or 0 when total is 0. [updateStepState] stores the same aggregate of
    the step states it has just written. *)
Theorem updateProgress_aggregates (clock : nat -> Z) (e : Env) :
  let records (s : StepStatus.t) (m : gmap string StepState.t) :=
    size (filter (fun kv : string * StepState.t =>
                    StepState.status (snd kv) = Some s) m) in
  let p := progressOf (execM (updateProgress clock) e) in
  Progress.totalSteps p = length (stepsOf (_data e))
  /\ Progress.completedSteps p
     = records StepStatus.completed (stepStatesOf (_data e))
  /\ Progress.failedSteps p
     = records StepStatus.failed (stepStatesOf (_data e))
  /\ Progress.skippedSteps p
     = records StepStatus.skipped (stepStatesOf (_data e))
  /\ Progress.progressPercent p
     = (if decide (Progress.totalSteps p = 0%nat) then 0%float
        else (js_number (Progress.completedSteps p)
              / js_number (Progress.totalSteps p) * 100)%float)
  /\ forall stepId state,
       progressOf (execM (updateStepState clock stepId state) e)
       = progressOf
           (execM (updateProgress clock)
              (execM (updateStepState clock stepId state) e)).
Proof.
  cbv zeta.
  assert (Hp : progressOf (execM (updateProgress clock) e)
               = aggregate (stepsOf (_data e)) (stepStatesOf (_data e))).
  { reflexivity. }
  rewrite Hp. cbn [aggregate Progress.totalSteps Progress.completedSteps
                   Progress.failedSteps Progress.skippedSteps
                   Progress.progressPercent].
  rewrite <- !countStatus_size.
  repeat split; try reflexivity.
  - apply percentOf_cases.
  - intros stepId state. rewrite updateStepState_progress.
    run_method. split_ifs; reflexivity.
Qed.

(** C5, the claim as stated fails: with one of two steps completed the
    stored percentage is 50, not the quotient completed / total = 0.5. *)
Lemma progressPercent_is_scaled_by_100 :
  let p := progressOf (execM (updateProgress sampleClock) halfDone) in
  Progress.completedSteps p = 1%nat
  /\ Progress.totalSteps p = 2%nat
  /\ Progress.progressPercent p = 50%float
  /\ (js_number (Progress.completedSteps p)
      / js_number (Progress.totalSteps p))%float = 0.5%float
  /\ Progress.progressPercent p
     <> (js_number (Progress.completedSteps p)
         / js_number (Progress.totalSteps p))%float.
Proof.
  cbv zeta. repeat split; try reflexivity.
  intros H. apply (f_equal (fun x => PrimFloat.ltb x 1%float)) in H.
  vm_compute in H. discriminate H.
Qed.

Lemma own_set_ne (b : Bag.t) (key other : string) (value : JsValue) :
  other <> key ->
  Bag.own (Bag.set key value b) !! other = Bag.own b !! other.
Proof.
  intros Hne. unfold Bag.set.
  destruct (_ && _); [destruct value; reflexivity|].
  cbn [Bag.own]. now rewrite lookup_insert_ne.
Qed.

Lemma own_set_eq (b : Bag.t) (key : string) (value : JsValue) :
  key <> "__proto__" ->
  Bag.own (Bag.set key value b) !! key = Some value.
Proof.
  intros Hkey. unfold Bag.set.
  rewrite (bool_decide_eq_false_2 _ Hkey). cbn [andb Bag.own].
  apply lookup_insert_eq.
Qed.

Lemma nullProto_set (b : Bag.t) (key : string) (value : JsValue) :
  key <> "__proto__" ->
  Bag.nullProto (Bag.set key value b) = Bag.nullProto b.
Proof.
  intros Hkey. unfold Bag.set.
  now rewrite (bool_decide_eq_false_2 _ Hkey).
Qed.

Lemma get_set_eq (b : Bag.t) (key : string) (value : JsValue) :
  key <> "__proto__" ->
  Bag.get (Bag.set key value b) key = Bag.Value value.
Proof.
  intros Hkey. unfold Bag.get. now rewrite own_set_eq.
Qed.

Lemma get_set_ne (b : Bag.t) (key other : string) (value : JsValue) :
  key <> "__proto__" -> other <> key ->
  Bag.get (Bag.set key value b) other = Bag.get b other.
Proof.
  intros Hkey Hne. unfold Bag.get.
  rewrite own_set_ne by done. now rewrite nullProto_set.
Qed.

(** C7 (as amended). [setOutput] with a key other than ["__proto__"]
    stores the value under the key whatever was stored there before (the
    last write wins); [setOutput] leaves the other keys as they were;
    [complete] likewise lets the outputs it is given replace the stored
    ones; [updateStatus], [updateProgress] and [updateStepState] do not
    touch the output bag. *)
Theorem setOutput_overwrites
    (clock : nat -> Z) (e : Env) (key : string) (value : JsValue) :
  (key <> "__proto__" ->
     outputsOf (execM (setOutput clock key value) e) !! key = Some value)
  /\ (forall other, other <> key ->
        outputsOf (execM (setOutput clock key value) e) !! other
        = outputsOf e !! other)
  /\ (forall final, final !! key = Some value ->
        outputsOf (execM (complete clock (Some final)) e) !! key = Some value)
  /\ (forall status, outputsOf (execM (updateStatus clock status) e)
                     = outputsOf e)
  /\ outputsOf (execM (updateProgress clock) e) = outputsOf e
  /\ forall stepId state,
       outputsOf (execM (updateStepState clock stepId state) e) = outputsOf e.
Proof.
  repeat split.
  - intros Hkey. run_method. cbn. now apply own_set_eq.
  - intros other Hne. run_method. cbn. rewrite own_set_ne by done.
    now destruct (ExecutionState.outputs _).
  - intros final Hfinal. unfold complete. run_method. cbn.
    split_ifs; cbn; now apply lookup_union_Some_l.
  - intros status. run_method. split_ifs; reflexivity.
  - intros stepId state. run_method. cbn. split_ifs; reflexivity.
Qed.

Lemma setOutput_overwrites_witness :
  outputsOf (execM (setOutput sampleClock "result" (JsNumber 2))
               (execM (setOutput sampleClock "result" (JsNumber 1))
                  emptyGraph))
    !! "result"
  = Some (JsNumber 2)
  /\ outputsOf (execM (setOutput sampleClock "result" (JsNumber 2))
                  (execM (setOutput sampleClock "other" (JsNumber 1))
                     emptyGraph))
       !! "other"
     = Some (JsNumber 1)
  /\ outputsOf
       (execM (complete sampleClock (Some {[ "result" := JsNumber 3 ]}))
          (execM (setOutput sampleClock "result" (JsNumber 2)) emptyGraph))
     !! "result"
     = Some (JsNumber 3).
Proof.
  split; [|split].
  - apply (proj1 (setOutput_overwrites sampleClock
               (execM (setOutput sampleClock "result" (JsNumber 1)) emptyGraph)
               "result" (JsNumber 2))).
    discriminate.
  - rewrite (proj1 (proj2 (setOutput_overwrites sampleClock
               (execM (setOutput sampleClock "other" (JsNumber 1)) emptyGraph)
               "result" (JsNumber 2))) "other").
    + reflexivity.
    + discriminate.
  - apply (proj1 (proj2 (proj2 (setOutput_overwrites sampleClock
               (execM (setOutput sampleClock "result" (JsNumber 2)) emptyGraph)
               "result" (JsNumber 3))))).
    reflexivity.
Defined.

(** C7, the claim as stated fails: a second [setOutput] for the same key
    replaces the value written by the first. *)
Lemma setOutput_is_not_write_once :
  outputsOf (execM (setOutput sampleClock "result" (JsNumber 1)) emptyGraph)
    !! "result" = Some (JsNumber 1)
  /\ outputsOf
       (execM (setOutput sampleClock "result" (JsNumber 2))
          (execM (setOutput sampleClock "result" (JsNumber 1)) emptyGraph))
     !! "result" = Some (JsNumber 2)
  /\ Some (JsNumber 2) <> Some (JsNumber 1).
Proof. repeat split; try reflexivity. discriminate. Qed.

(** C10, at an id that [stepStates] inherits. A workflow without state
    records has no record for ["constructor"], but [stepStates] inherits a
    function under that name, so the test [!stepStates[stepId]] fails: no
    default record is installed, and the record stored is the update
    alone, without [status] and [retryCount]. For ["__proto__"] the
    assignment stores no record at all, so a completed update is not
    counted. *)
Theorem updateStepState_misses_inherited_ids :
  let boom :=
    PartialStepState.mk None None None None None None (Some "boom") in
  let e1 := execM (updateStepState sampleClock "constructor" boom)
              emptyGraph in
  let e2 := execM (updateStepState sampleClock "__proto__"
                     (PartialStepState.of_status StepStatus.completed))
              emptyGraph in
  stepStatesOf (_data emptyGraph) !! "constructor" = None
  /\ stepStatesOf (_data e1) !! "constructor"
     = Some (StepState.mk None None None None None None (Some "boom"))
  /\ spread defaultStepState boom
     = StepState.mk (Some StepStatus.pending) None None None (Some 0) None
         (Some "boom")
  /\ stepStatesOf (_data e1) !! "constructor"
     <> Some (spread defaultStepState boom)
  /\ stepStatesOf (_data emptyGraph) !! "__proto__" = None
  /\ stepStatesOf (_data e2) !! "__proto__" = None
  /\ Progress.completedSteps (progressOf e2) = 0%nat.
Proof.
  cbv zeta. repeat split; try reflexivity.
  vm_compute. discriminate.
Qed.

(** ** Further properties of the ready-step resolver *)

Lemma eligible_same_id d (s1 s2 : WorkflowStep.t) :
  WorkflowStep.id s1 = WorkflowStep.id s2 -> eligible d s1 = eligible d s2.
Proof. intros Hid. unfold eligible. now rewrite Hid. Qed.

Lemma eligible_iff d stepId step0 :
  WorkflowStep.id step0 = stepId ->
  eligible d step0 = true <->
  notStartedYet (stateOf d stepId) = true
  /\ exists step, findStep d stepId = Some step
       /\ forallb (isCompleted d) (WorkflowStep.dependsOn step) = true.
Proof.
  intros <-. unfold eligible, stepReady. rewrite andb_true_iff.
  destruct (findStep d (WorkflowStep.id step0)) as [step|]; split.
  - intros [H1 H2]. eauto.
  - intros [H1 (step' & [= <-] & H2)]. auto.
  - intros [_ [=]].
  - intros [_ (step' & [=] & _)].
Qed.

Lemma findStep_Some_In d stepId step :
  findStep d stepId = Some step ->
  In step (stepsOf d) /\ WorkflowStep.id step = stepId.
Proof.
  unfold findStep. intros H. apply find_some in H as [Hin Hid].
  split; [exact Hin|]. now apply bool_decide_eq_true in Hid.
Qed.

Lemma readyIds_iff d stepId :
  In stepId (readyIds d) <->
  notStartedYet (stateOf d stepId) = true
  /\ exists step, findStep d stepId = Some step
       /\ forallb (isCompleted d) (WorkflowStep.dependsOn step) = true.
Proof.
  rewrite In_readyIds. split.
  - intros (step0 & _ & Hid & Hel). now apply (eligible_iff d stepId step0).
  - intros (Hnot & step & Hfind & Hdeps).
    destruct (findStep_Some_In _ _ _ Hfind) as [Hin Hid].
    exists step. split; [exact Hin|]. split; [exact Hid|].
    apply (eligible_iff d stepId step Hid). eauto.
Qed.

Lemma notStartedYet_true (state : option StepState.t) :
  notStartedYet state = true <->
  state = None
  \/ exists st, state = Some st /\ StepState.status st = Some StepStatus.pending.
Proof.
  destruct state as [st|]; cbn.
  - rewrite bool_decide_eq_true. split; [eauto|].
    intros [[=]|(st' & [= <-] & H)]. exact H.
  - split; auto.
Qed.

(** X1. Completeness of [getReadySteps]: an id is returned whenever
    [getStep] finds a step under it, [stepStates] has nothing under the id
    ([getStepState] gives a falsy value) or a record with status pending,
    and every id in the [dependsOn] of that step has a record with status
    completed. *)
Theorem getReadySteps_complete (e : Env) (step : WorkflowStep.t) :
  evalM (getStep (WorkflowStep.id step)) e = Some step ->
  (evalM (getStepState (WorkflowStep.id step)) e = None
   \/ exists st, evalM (getStepState (WorkflowStep.id step)) e = Some st
                 /\ StepState.status st = Some StepStatus.pending) ->
  (forall depId, In depId (WorkflowStep.dependsOn step) ->
     exists dst, evalM (getStepState depId) e = Some dst
                 /\ StepState.status dst = Some StepStatus.completed) ->
  In (WorkflowStep.id step) (evalM getReadySteps e).
Proof.
  intros Hstep Hstate Hdeps. rewrite evalM_getReadySteps.
  apply readyIds_iff. split.
  - now apply notStartedYet_true.
  - exists step. split; [exact Hstep|]. now apply forallb_isCompleted.
Qed.

Lemma getReadySteps_complete_witness :
  In "S2" (evalM getReadySteps diamondRun).
Proof.
  apply (getReadySteps_complete diamondRun (mkStep "S2" ["S1"])).
  - reflexivity.
  - left. reflexivity.
  - intros depId [<-|[]]. exists (inStatus StepStatus.completed).
    split; reflexivity.
Defined.

Lemma sublist_map_filter {A B} (f : A -> B) (p : A -> bool) (l : list A) :
  sublist (List.map f (List.filter p l)) (List.map f l).
Proof.
  induction l as [|x l IH]; cbn; [constructor|].
  destruct (p x); cbn; now constructor.
Qed.

(** X2. [getReadySteps] keeps the declaration order: its result is a
    subsequence of the ids of [definition.steps], so when the step ids are
    pairwise distinct no id is returned twice. *)
Theorem getReadySteps_in_declaration_order (e : Env) :
  sublist (evalM getReadySteps e)
          (List.map WorkflowStep.id (stepsOf (_data e)))
  /\ (NoDup (List.map WorkflowStep.id (stepsOf (_data e))) ->
      NoDup (evalM getReadySteps e)).
Proof.
  rewrite evalM_getReadySteps. unfold readyIds.
  pose proof (sublist_map_filter WorkflowStep.id (eligible (_data e))
                (stepsOf (_data e))) as Hsub.
  split; [exact Hsub|]. intros Hnd. eapply sublist_NoDup; eassumption.
Qed.

Lemma getReadySteps_in_declaration_order_witness :
  NoDup (evalM getReadySteps threeIndependent).
Proof.
  apply (proj2 (getReadySteps_in_declaration_order threeIndependent)).
  apply (bool_decide_unpack _). vm_compute. exact I.
Defined.

(** X6. A step and one of its dependencies are never ready together: when
    the id of a step that [getStep] finds (the first step with its id) is
    returned, no id in the [dependsOn] of that step is returned. In
    particular such a step that depends on itself is never returned. *)
Theorem ready_step_has_no_ready_dependency
    (e : Env) (step : WorkflowStep.t) (depId : string) :
  evalM (getStep (WorkflowStep.id step)) e = Some step ->
  In depId (WorkflowStep.dependsOn step) ->
  In (WorkflowStep.id step) (evalM getReadySteps e) ->
  ~ In depId (evalM getReadySteps e).
Proof.
  rewrite evalM_getReadySteps. intros Hstep Hin Hready Hdep.
  apply readyIds_iff in Hready as (_ & step' & Hfind & Hall).
  change (findStep (_data e) (WorkflowStep.id step) = Some step) in Hstep.
  rewrite Hstep in Hfind. injection Hfind as <-.
  apply forallb_isCompleted with (depId := depId) in Hall; [|exact Hin].
  destruct Hall as (dst & Hdst & Hcompleted).
  apply readyIds_iff in Hdep as (Hnot & _). rewrite Hdst in Hnot.
  cbn in Hnot. apply bool_decide_eq_true in Hnot. congruence.
Qed.

Lemma ready_step_has_no_ready_dependency_witness :
  ~ In "S1"
      (evalM getReadySteps
         (mkEnv (mkWorkflow diamond None WorkflowStatus.running []
                   {[ "S1" := inStatus StepStatus.completed ]}) 0)).
Proof.
  apply (ready_step_has_no_ready_dependency _ (mkStep "S2" ["S1"]) "S1").
  - reflexivity.
  - left. reflexivity.
  - left. reflexivity.
Defined.

Lemma occurrences_map_filter (i : string) (p : WorkflowStep.t -> bool)
    (l : list WorkflowStep.t) :
  (forall s, In s l -> WorkflowStep.id s = i -> p s = true) ->
  occurrences i (List.map WorkflowStep.id (List.filter p l))
  = occurrences i (List.map WorkflowStep.id l).
Proof.
  unfold occurrences. induction l as [|s l IH]; intros Hp; [reflexivity|].
  cbn [List.filter List.map].
  destruct (decide (WorkflowStep.id s = i)) as [Hi|Hi].
  - rewrite (Hp s) by (auto using in_eq). cbn [List.map List.filter].
    rewrite (bool_decide_eq_true_2 _ Hi). cbn [length].
    rewrite IH; [reflexivity|]. intros s' Hin. apply Hp. now right.
  - assert (Hrest : length (List.filter (fun x => bool_decide (x = i))
                              (List.map WorkflowStep.id (List.filter p l)))
                    = length (List.filter (fun x => bool_decide (x = i))
                                (List.map WorkflowStep.id l))).
    { apply IH. intros s' Hin. apply Hp. now right. }
    destruct (p s); cbn [List.map List.filter];
      rewrite (bool_decide_eq_false_2 _ Hi); exact Hrest.
Qed.

(** X7. Steps that share an id are decided together, by the first step with
    that id: an id that is returned at all is returned once for every step
    that carries it. *)
Theorem getReadySteps_duplicate_ids (e : Env) (stepId : string) :
  In stepId (evalM getReadySteps e) ->
  occurrences stepId (evalM getReadySteps e)
  = occurrences stepId (List.map WorkflowStep.id (stepsOf (_data e))).
Proof.
  rewrite evalM_getReadySteps. intros Hin.
  apply In_readyIds in Hin as (step0 & _ & Hid0 & Hel0).
  unfold readyIds. apply occurrences_map_filter.
  intros s _ Hid. rewrite <- Hel0. apply eligible_same_id. congruence.
Qed.

Lemma getReadySteps_duplicate_ids_witness :
  occurrences "S1"
    (evalM getReadySteps
       (mkEnv (mkWorkflow [mkStep "S1" []; mkStep "S1" ["S9"]] None
                 WorkflowStatus.running [] ∅) 0))
  = 2%nat.
Proof.
  rewrite (getReadySteps_duplicate_ids
             (mkEnv (mkWorkflow [mkStep "S1" []; mkStep "S1" ["S9"]] None
                       WorkflowStatus.running [] ∅) 0) "S1").
  - reflexivity.
  - left. reflexivity.
Defined.

(** X8. The two public readiness methods are consistent: [isStepReady]
    answers [true] for every id that [getReadySteps] returns, and [false]
    for an id that names no step of the definition. *)
Theorem isStepReady_consistent (e : Env) (stepId : string) :
  (In stepId (evalM getReadySteps e) -> evalM (isStepReady stepId) e = true)
  /\ (evalM (getStep stepId) e = None -> evalM (isStepReady stepId) e = false).
Proof.
  unfold evalM at 2 4. rewrite !(reads_isStepReady stepId e). cbn [fst].
  split.
  - rewrite evalM_getReadySteps. intros Hin.
    apply readyIds_iff in Hin as (_ & step & Hfind & Hall).
    unfold stepReady. now rewrite Hfind.
  - intros Hnone. change (findStep (_data e) stepId = None) in Hnone.
    unfold stepReady. now rewrite Hnone.
Qed.

Lemma isStepReady_consistent_witness :
  evalM (isStepReady "S1") freshRun = true
  /\ evalM (isStepReady "nowhere") freshRun = false.
Proof.
  split.
  - apply (proj1 (isStepReady_consistent freshRun "S1")). left. reflexivity.
  - apply (proj2 (isStepReady_consistent freshRun "nowhere")). reflexivity.
Defined.

(** ** Lists of active steps *)

Lemma spliceOut_sublist (x : string) (l : list string) :
  sublist (spliceOut x l) l.
Proof.
  induction l as [|y l IH]; cbn; [constructor|].
  destruct (bool_decide (y = x)); now constructor.
Qed.

Lemma spliceOut_NoDup (x : string) (l : list string) :
  NoDup l -> NoDup (spliceOut x l).
Proof.
  intros H. pose proof (spliceOut_sublist x l) as Hsub.
  eapply sublist_NoDup; eassumption.
Qed.

Lemma spliceOut_other (x y : string) (l : list string) :
  y <> x -> In y (spliceOut x l) <-> In y l.
Proof.
  intros Hne. induction l as [|z l IH]; cbn; [tauto|].
  destruct (decide (z = x)) as [->|Hz].
  - rewrite bool_decide_eq_true_2 by reflexivity. split; [tauto|].
    intros [Heq|H]; [congruence|exact H].
  - rewrite bool_decide_eq_false_2 by exact Hz. cbn. tauto.
Qed.

Lemma spliceOut_absent (x : string) (l : list string) :
  ~ In x l -> spliceOut x l = l.
Proof.
  induction l as [|y l IH]; cbn; [reflexivity|]. intros Hnot.
  rewrite bool_decide_eq_false_2 by (intros ->; tauto).
  rewrite IH; [reflexivity|tauto].
Qed.

Lemma spliceOut_removes (x : string) (l : list string) :
  NoDup l -> ~ In x (spliceOut x l).
Proof.
  induction 1 as [|y l Hy Hnd IH]; cbn; [tauto|].
  destruct (decide (y = x)) as [->|Hne].
  - rewrite bool_decide_eq_true_2 by reflexivity.
    now rewrite <- list_elem_of_In.
  - rewrite bool_decide_eq_false_2 by exact Hne. cbn. tauto.
Qed.

Lemma pushIfAbsent_In (x : string) (l : list string) :
  In x (pushIfAbsent x l).
Proof.
  unfold pushIfAbsent, includes. destruct (decide (x ∈ l)) as [Hin|Hin].
  - rewrite bool_decide_eq_true_2 by exact Hin. cbn.
    now apply list_elem_of_In.
  - rewrite bool_decide_eq_false_2 by exact Hin. cbn.
    apply in_or_app. right. now left.
Qed.

Lemma pushIfAbsent_other (x y : string) (l : list string) :
  y <> x -> In y (pushIfAbsent x l) <-> In y l.
Proof.
  intros Hne. unfold pushIfAbsent. destruct (negb (includes l x)); [|tauto].
  rewrite in_app_iff. cbn. split; [|tauto]. intros [H|[H|[]]]; congruence.
Qed.

Lemma pushIfAbsent_NoDup (x : string) (l : list string) :
  NoDup l -> NoDup (pushIfAbsent x l).
Proof.
  intros Hnd. unfold pushIfAbsent, includes.
  destruct (decide (x ∈ l)) as [Hin|Hin].
  - now rewrite bool_decide_eq_true_2 by exact Hin.
  - rewrite bool_decide_eq_false_2 by exact Hin. cbn.
    apply NoDup_app. split; [exact Hnd|]. split.
    + intros y Hy Hx. apply list_elem_of_singleton in Hx. congruence.
    + apply NoDup_singleton.
Qed.

Lemma pushIfAbsent_idempotent (x : string) (l : list string) :
  pushIfAbsent x (pushIfAbsent x l) = pushIfAbsent x l.
Proof.
  unfold pushIfAbsent at 1. unfold includes.
  rewrite bool_decide_eq_true_2; [reflexivity|].
  apply list_elem_of_In, pushIfAbsent_In.
Qed.

(** ** The effect of one call on the parts of the state *)

Ltac step_ifs :=
  repeat (cbn;
          match goal with
          | |- context [match ?o with Some _ => _ | None => _ end _] =>
              is_var o; destruct o
          | |- context [if ?b then _ else _] => destruct b eqn:?
          end);
  cbn.

(** Decides the tests on constants. *)
Ltac decide_closed :=
  repeat match goal with
         | |- context [bool_decide ?P] =>
             let b := eval vm_compute in (bool_decide P) in
             match b with
             | true => change (bool_decide P) with true
             | false => change (bool_decide P) with false
             end
         end.

Ltac crunch := repeat (progress (decide_closed; cbn)).

Ltac run_call :=
  unfold call, start, pause, resume, cancel, complete, fail, setVariable,
    setCurrentStep, getVariable, getDuration, canStart, canPause, canResume,
    hasStatus, activeStepsOf, startedAtOf, completedAtOf, auditLogOf;
  run_method; cbn.

Lemma execM_bind {A B} (m : M A) (k : A -> M B) e :
  execM (bind m k) e = execM (k (evalM m e)) (execM m e).
Proof. unfold execM, evalM, bind. now destruct (m e). Qed.

Lemma calls_cons clock c cs e :
  execM (calls clock (c :: cs)) e
  = execM (calls clock cs) (execM (call clock c) e).
Proof. cbn [calls]. now rewrite execM_bind. Qed.


Lemma call_activeSteps clock c e :
  activeStepsOf (execM (call clock c) e) = activeEffect c (activeStepsOf e).
Proof.
  destruct c; run_call; unfold pushIfAbsent; step_ifs;
    try reflexivity; congruence.
Qed.

Lemma activeEffect_NoDup c l : NoDup l -> NoDup (activeEffect c l).
Proof.
  intros H. destruct c; cbn; try exact H.
  - now apply pushIfAbsent_NoDup.
  - destruct (bool_decide _);
      [now apply pushIfAbsent_NoDup|now apply spliceOut_NoDup].
Qed.

Lemma call_definition clock c e :
  WorkflowType.definition (_data (execM (call clock c) e))
  = WorkflowType.definition (_data e).
Proof. destruct c; run_call; step_ifs; reflexivity. Qed.

Lemma call_stepStates clock c e :
  storeOf (_data (execM (call clock c) e))
  = stepStatesEffect c (storeOf (_data e)).
Proof.
  destruct c; try apply updateStepState_store;
    run_call; step_ifs; reflexivity.
Qed.

Lemma call_progress clock c e :
  progressOf (execM (call clock c) e)
  = match c with
    | CallUpdateProgress | CallStart | CallUpdateStepState _ _ =>
        aggregate (stepsOf (_data e))
          (stepStatesOf (_data (execM (call clock c) e)))
    | _ => progressOf e
    end.
Proof.
  destruct c; try apply updateStepState_progress;
    run_call; step_ifs; reflexivity.
Qed.

Lemma call_auditLog clock c e :
  auditLogOf e `prefix_of` auditLogOf (execM (call clock c) e).
Proof.
  destruct c; run_call; step_ifs;
    try reflexivity; try (now apply prefix_app_r);
    try (rewrite <- app_assoc; now apply prefix_app_r).
Qed.

Lemma call_startedAt clock c e t :
  startedAtOf e = Some t -> t <> 0 ->
  startedAtOf (execM (call clock c) e) = Some t.
Proof.
  unfold startedAtOf. intros Ht Hne.
  assert (Hfalsy : falsyNumber (ExecutionState.startedAt
                      (WorkflowType.executionState (_data e))) = false).
  { rewrite Ht. cbn. now apply bool_decide_eq_false_2. }
  destruct c; run_call; step_ifs; try exact Ht;
    exfalso;
    match goal with
    | H : _ && falsyNumber _ = true |- _ =>
        rewrite Hfalsy, andb_false_r in H; discriminate H
    end.
Qed.

(** ** Step states and the ready list *)

Lemma findStep_ext d1 d2 stepId :
  stepsOf d1 = stepsOf d2 -> findStep d1 stepId = findStep d2 stepId.
Proof. unfold findStep. now intros ->. Qed.

Lemma isCompleted_assign_other d d' stepId (record : StepState.t) depId :
  storeOf d' = StepStates.assign stepId record (storeOf d) ->
  stepId <> "__proto__" ->
  depId <> stepId -> isCompleted d' depId = isCompleted d depId.
Proof.
  intros Hm Hkey Hne. unfold isCompleted, stateOf. rewrite Hm.
  now rewrite lookup_assign_ne.
Qed.

Lemma isCompleted_assign_completed d d' stepId (record : StepState.t) :
  storeOf d' = StepStates.assign stepId record (storeOf d) ->
  StepState.status record = Some StepStatus.completed ->
  isCompleted d' stepId = true.
Proof.
  intros Hm Hc. unfold isCompleted, stateOf. rewrite Hm, lookup_assign_eq.
  now apply bool_decide_eq_true.
Qed.

(** After the record of [depId] has been set to completed, a step that was
    only waiting for [depId] is ready. *)
Lemma readyIds_after_completion d d' depId (record : StepState.t) step :
  stepsOf d' = stepsOf d ->
  storeOf d' = StepStates.assign depId record (storeOf d) ->
  depId <> "__proto__" ->
  StepState.status record = Some StepStatus.completed ->
  findStep d (WorkflowStep.id step) = Some step ->
  WorkflowStep.id step <> depId ->
  notStartedYet (stateOf d (WorkflowStep.id step)) = true ->
  (forall x, In x (WorkflowStep.dependsOn step) ->
     x = depId \/ isCompleted d x = true) ->
  In (WorkflowStep.id step) (readyIds d').
Proof.
  intros Hsteps Hm Hkey Hc Hfind Hne Hnot Hdeps. apply readyIds_iff. split.
  - unfold stateOf. rewrite Hm. now rewrite lookup_assign_ne.
  - exists step. split; [now rewrite (findStep_ext d' d)|].
    apply forallb_forall. intros x Hx.
    destruct (decide (x = depId)) as [->|Hx'].
    + now apply (isCompleted_assign_completed d d' depId record).
    + rewrite (isCompleted_assign_other d d' depId record) by assumption.
      destruct (Hdeps x Hx) as [?|H]; [contradiction|exact H].
Qed.

Lemma spread_status old state s :
  PartialStepState.status state = Some s ->
  StepState.status (spread old state) = Some s.
Proof. intros H. cbn. now rewrite H. Qed.

(** X3. A step whose record has just been given a status other than pending
    is not returned by [getReadySteps]: a step that was marked running,
    completed, failed, skipped or cancelled is not handed out again. *)
Theorem updated_step_is_not_ready
    (clock : nat -> Z) (e : Env) (stepId : string)
    (state : PartialStepState.t) (s : StepStatus.t) :
  PartialStepState.status state = Some s ->
  s <> StepStatus.pending ->
  ~ In stepId
      (evalM getReadySteps (execM (updateStepState clock stepId state) e)).
Proof.
  intros Hs Hne. rewrite evalM_getReadySteps. intros Hin.
  apply readyIds_iff in Hin as (Hnot & _).
  pose proof (updateStepState_record clock e stepId state) as Hrecord.
  change (evalM (getStepState stepId) ?e') with (stateOf (_data e') stepId)
    in Hrecord.
  rewrite Hrecord in Hnot.
  cbn [notStartedYet] in Hnot. apply bool_decide_eq_true in Hnot.
  rewrite (spread_status _ _ s Hs) in Hnot. congruence.
Qed.

Lemma updated_step_is_not_ready_witness :
  ~ In "S1"
      (evalM getReadySteps
         (execM (updateStepState sampleClock "S1"
                   (PartialStepState.of_status StepStatus.running))
                freshRun)).
Proof.
  apply (updated_step_is_not_ready sampleClock freshRun "S1"
           (PartialStepState.of_status StepStatus.running)
           StepStatus.running).
  - reflexivity.
  - discriminate.
Defined.

(** X4. Completing the last missing dependency unblocks a step. Let
    [getStep] find the step under its id, let the id differ from [depId],
    and let [depId] not be ["__proto__"]. If [stepStates] has nothing or a
    pending record under the id of the step, and each id in its
    [dependsOn] is either [depId] or has a completed record, then after
    [updateStepState(depId, {status: 'completed', ...})] the id of the
    step is returned by [getReadySteps]. *)
Theorem completing_last_dependency_unblocks
    (clock : nat -> Z) (e : Env) (step : WorkflowStep.t) (depId : string)
    (state : PartialStepState.t) :
  PartialStepState.status state = Some StepStatus.completed ->
  evalM (getStep (WorkflowStep.id step)) e = Some step ->
  WorkflowStep.id step <> depId ->
  depId <> "__proto__" ->
  (evalM (getStepState (WorkflowStep.id step)) e = None
   \/ exists st, evalM (getStepState (WorkflowStep.id step)) e = Some st
                 /\ StepState.status st = Some StepStatus.pending) ->
  (forall x, In x (WorkflowStep.dependsOn step) ->
     x = depId
     \/ exists dst, evalM (getStepState x) e = Some dst
                    /\ StepState.status dst = Some StepStatus.completed) ->
  In (WorkflowStep.id step)
     (evalM getReadySteps (execM (updateStepState clock depId state) e)).
Proof.
  intros Hs Hstep Hne Hkey Hstate Hdeps. rewrite evalM_getReadySteps.
  eapply (readyIds_after_completion (_data e)).
  - apply updateStepState_steps.
  - apply updateStepState_store.
  - exact Hkey.
  - now apply spread_status.
  - exact Hstep.
  - exact Hne.
  - now apply notStartedYet_true.
  - intros x Hx. destruct (Hdeps x Hx) as [->|(dst & Hdst & Hc)]; [now left|].
    right. unfold isCompleted.
    change (stateOf (_data e) x = Some dst) in Hdst.
    rewrite Hdst. now apply bool_decide_eq_true.
Qed.

Lemma completing_last_dependency_unblocks_witness :
  In "S4"
     (evalM getReadySteps
        (execM (updateStepState sampleClock "S3"
                  (PartialStepState.of_status StepStatus.completed))
               (mkEnv (mkWorkflow diamond None WorkflowStatus.running ["S3"]
                         {[ "S1" := inStatus StepStatus.completed;
                            "S2" := inStatus StepStatus.completed;
                            "S3" := inStatus StepStatus.running ]}) 0))).
Proof.
  apply (completing_last_dependency_unblocks sampleClock _
           (mkStep "S4" ["S2"; "S3"]) "S3"
           (PartialStepState.of_status StepStatus.completed)).
  - reflexivity.
  - reflexivity.
  - discriminate.
  - discriminate.
  - left. reflexivity.
  - intros x [<-|[<-|[]]].
    + right. exists (inStatus StepStatus.completed). split; reflexivity.
    + left. reflexivity.
Defined.

(** X5. Completing a step never takes another step out of the ready list:
    for a [stepId] other than ["__proto__"], an id other than [stepId]
    that is returned before [updateStepState(stepId, {status: 'completed',
    ...})] is returned after it. *)
Theorem completion_keeps_others_ready
    (clock : nat -> Z) (e : Env) (stepId other : string)
    (state : PartialStepState.t) :
  PartialStepState.status state = Some StepStatus.completed ->
  stepId <> "__proto__" ->
  other <> stepId ->
  In other (evalM getReadySteps e) ->
  In other
     (evalM getReadySteps (execM (updateStepState clock stepId state) e)).
Proof.
  intros Hs Hkey Hne. rewrite !evalM_getReadySteps. intros Hin.
  apply readyIds_iff in Hin as (Hnot & step & Hfind & Hall).
  destruct (findStep_Some_In _ _ _ Hfind) as [_ Hid]. subst other.
  eapply (readyIds_after_completion (_data e)).
  - apply updateStepState_steps.
  - apply updateStepState_store.
  - exact Hkey.
  - now apply spread_status.
  - exact Hfind.
  - exact Hne.
  - exact Hnot.
  - intros x Hx. right. rewrite forallb_forall in Hall. now apply Hall.
Qed.

Lemma completion_keeps_others_ready_witness :
  In "Q"
     (evalM getReadySteps
        (execM (updateStepState sampleClock "P"
                  (PartialStepState.of_status StepStatus.completed))
               threeIndependent)).
Proof.
  apply (completion_keeps_others_ready sampleClock threeIndependent "P" "Q"
           (PartialStepState.of_status StepStatus.completed)).
  - reflexivity.
  - discriminate.
  - discriminate.
  - right. left. reflexivity.
Defined.

(** ** The active steps *)

(** X9. [activeSteps] never gets a duplicate: if it has none, it has none
    after any sequence of calls of the state-changing methods. *)
Theorem activeSteps_stay_duplicate_free
    (clock : nat -> Z) (cs : list Call) (e : Env) :
  NoDup (activeStepsOf e) ->
  NoDup (activeStepsOf (execM (calls clock cs) e)).
Proof.
  revert e. induction cs as [|c cs IH]; intros e Hnd; [exact Hnd|].
  rewrite calls_cons. apply IH. rewrite call_activeSteps.
  now apply activeEffect_NoDup.
Qed.

Lemma activeSteps_stay_duplicate_free_witness :
  NoDup (activeStepsOf
           (execM (calls sampleClock
                     [CallStart; CallSetCurrentStep "S1";
                      CallUpdateStepState "S1"
                        (PartialStepState.of_status StepStatus.running);
                      CallUpdateStepState "S1"
                        (PartialStepState.of_status StepStatus.completed)])
                  halfDone)).
Proof.
  apply (activeSteps_stay_duplicate_free sampleClock _ halfDone).
  apply NoDup_nil_2.
Defined.

(** X10. [updateStepState] and [activeSteps]: an update to running makes
    the step active; any other update (one without a status included)
    removes it, provided the list had no duplicates; the other ids stay as
    they were. An update without a status leaves the status of the record
    alone, so a running step can leave the list while still running. *)
Theorem updateStepState_activeSteps
    (clock : nat -> Z) (e : Env) (stepId : string)
    (state : PartialStepState.t) :
  let e' := execM (updateStepState clock stepId state) e in
  (PartialStepState.status state = Some StepStatus.running ->
     In stepId (activeStepsOf e'))
  /\ (PartialStepState.status state <> Some StepStatus.running ->
      NoDup (activeStepsOf e) -> ~ In stepId (activeStepsOf e'))
  /\ (forall other, other <> stepId ->
        In other (activeStepsOf e') <-> In other (activeStepsOf e))
  /\ (PartialStepState.status state = None ->
      forall st, evalM (getStepState stepId) e = Some st ->
        exists st', evalM (getStepState stepId) e' = Some st'
                    /\ StepState.status st' = StepState.status st).
Proof.
  cbv zeta.
  pose proof (call_activeSteps clock (CallUpdateStepState stepId state) e)
    as Hact. cbn [call activeEffect] in Hact. rewrite Hact.
  repeat split.
  - intros Hrun. rewrite bool_decide_eq_true_2 by exact Hrun.
    apply pushIfAbsent_In.
  - intros Hnot Hnd. rewrite bool_decide_eq_false_2 by exact Hnot.
    now apply spliceOut_removes.
  - destruct (bool_decide _);
      [now apply pushIfAbsent_other|now apply spliceOut_other].
  - destruct (bool_decide _);
      [now apply pushIfAbsent_other|now apply spliceOut_other].
  - intros Hnone st Hst. eexists. split; [apply updateStepState_record|].
    change (stateOf (_data e) stepId = Some st) in Hst.
    rewrite Hst. cbn. now rewrite Hnone.
Qed.

Lemma updateStepState_activeSteps_witness :
  let running :=
    mkEnv (mkWorkflow [mkStep "S1" []] None WorkflowStatus.running ["S1"]
             {[ "S1" := inStatus StepStatus.running ]}) 0 in
  let note := PartialStepState.mk None None None None (Some 1) None None in
  In "S1" (activeStepsOf
             (execM (updateStepState sampleClock "S1"
                       (PartialStepState.of_status StepStatus.running))
                    freshRun))
  /\ ~ In "S1" (activeStepsOf (execM (updateStepState sampleClock "S1" note)
                                 running))
  /\ exists st',
       evalM (getStepState "S1")
             (execM (updateStepState sampleClock "S1" note) running)
       = Some st'
       /\ StepState.status st' = Some StepStatus.running.
Proof.
  cbv zeta. split; [|split].
  - apply (proj1 (updateStepState_activeSteps sampleClock freshRun "S1"
                    (PartialStepState.of_status StepStatus.running))).
    reflexivity.
  - apply (proj1 (proj2 (updateStepState_activeSteps sampleClock _ "S1"
                    (PartialStepState.mk None None None None (Some 1)
                       None None)))).
    + discriminate.
    + apply (bool_decide_unpack _). vm_compute. exact I.
  - apply (proj2 (proj2 (proj2 (updateStepState_activeSteps sampleClock _
                    "S1" (PartialStepState.mk None None None None (Some 1)
                            None None)))) eq_refl
             (inStatus StepStatus.running)).
    reflexivity.
Defined.

(** ** More on [updateStepState] *)

Lemma spread_idempotent old state :
  spread (spread old state) state = spread old state.
Proof.
  destruct old, state as [s a b c r u v].
  destruct s, a, b, c, r, u, v; reflexivity.
Qed.

Lemma stepStatesEffect_idempotent c s :
  stepStatesEffect c (stepStatesEffect c s) = stepStatesEffect c s.
Proof.
  destruct c; try reflexivity. cbn [stepStatesEffect].
  rewrite lookup_assign_eq. cbn [default]. unfold id.
  now rewrite spread_idempotent, assign_assign.
Qed.

Lemma updateStepState_executionState clock e stepId state :
  WorkflowType.executionState
    (_data (execM (updateStepState clock stepId state) e))
  = let es := WorkflowType.executionState (_data e) in
    let records :=
      stepStatesEffect (CallUpdateStepState stepId state)
        (ExecutionState.stepStates es) in
    ExecutionState.with_progress
      (aggregate (stepsOf (_data e)) (StepStates.own records))
      (ExecutionState.with_activeSteps
         (activeEffect (CallUpdateStepState stepId state)
            (ExecutionState.activeSteps es))
         (ExecutionState.with_stepStates records es)).
Proof.
  destruct e as [[wid wname def es md] tk]. destruct es. cbv zeta.
  run_method. cbn.
  match goal with
  | |- context [bool_decide (StepStates.lookup ?m stepId = None)] =>
      destruct (StepStates.lookup m stepId) as [st|] eqn:Hst
  end.
  - rewrite bool_decide_eq_false_2 by discriminate. cbn. rewrite Hst.
    step_ifs; unfold pushIfAbsent; cbn; step_ifs; try reflexivity; congruence.
  - rewrite bool_decide_eq_true_2 by reflexivity. cbn.
    rewrite lookup_assign_eq, assign_assign.
    step_ifs; unfold pushIfAbsent; cbn; step_ifs; try reflexivity; congruence.
Qed.

Lemma activeEffect_idempotent c l :
  NoDup l -> activeEffect c (activeEffect c l) = activeEffect c l.
Proof.
  intros Hnd. destruct c; cbn; try reflexivity.
  - apply pushIfAbsent_idempotent.
  - destruct (bool_decide _); [apply pushIfAbsent_idempotent|].
    apply spliceOut_absent. now apply spliceOut_removes.
Qed.

(** X11. [updateStepState] is idempotent on the execution state: when
    [activeSteps] has no duplicates, repeating the call with the same
    arguments changes nothing more (step states, active steps, progress and
    all other fields of [executionState] are as after the first call). *)
Theorem updateStepState_idempotent
    (clock : nat -> Z) (e : Env) (stepId : string)
    (state : PartialStepState.t) :
  NoDup (activeStepsOf e) ->
  WorkflowType.executionState
    (_data (execM (updateStepState clock stepId state)
              (execM (updateStepState clock stepId state) e)))
  = WorkflowType.executionState
      (_data (execM (updateStepState clock stepId state) e)).
Proof.
  intros Hnd.
  rewrite (updateStepState_executionState clock
             (execM (updateStepState clock stepId state) e)).
  rewrite (updateStepState_steps clock e).
  rewrite !(updateStepState_executionState clock e). cbv zeta.
  cbn [ExecutionState.with_progress ExecutionState.with_activeSteps
       ExecutionState.with_stepStates ExecutionState.stepStates
       ExecutionState.activeSteps ExecutionState.status
       ExecutionState.progress ExecutionState.scheduledAt
       ExecutionState.startedAt ExecutionState.completedAt
       ExecutionState.currentStep ExecutionState.waitingSteps
       ExecutionState.variables ExecutionState.outputs].
  rewrite stepStatesEffect_idempotent.
  unfold activeStepsOf in Hnd.
  rewrite (activeEffect_idempotent _ _ Hnd). reflexivity.
Qed.

Lemma updateStepState_idempotent_witness :
  WorkflowType.executionState
    (_data (execM (updateStepState sampleClock "S2"
                     (PartialStepState.of_status StepStatus.failed))
              (execM (updateStepState sampleClock "S2"
                        (PartialStepState.of_status StepStatus.failed))
                     halfDone)))
  = WorkflowType.executionState
      (_data (execM (updateStepState sampleClock "S2"
                       (PartialStepState.of_status StepStatus.failed))
                halfDone)).
Proof.
  apply (updateStepState_idempotent sampleClock halfDone "S2"
           (PartialStepState.of_status StepStatus.failed)).
  apply NoDup_nil_2.
Defined.

(** X12. [updateStepState] touches one record only: the records that
    [stepStates] holds under the other ids are as before, and for a
    [stepId] other than ["__proto__"] so is everything [getStepState]
    returns for another id; the run status, the variables, the outputs,
    the current step, the start and completion times and the definition
    are as before. *)
Theorem updateStepState_frame
    (clock : nat -> Z) (e : Env) (stepId : string)
    (state : PartialStepState.t) :
  let e' := execM (updateStepState clock stepId state) e in
  (forall other, other <> stepId ->
     stepStatesOf (_data e') !! other = stepStatesOf (_data e) !! other)
  /\ (stepId <> "__proto__" ->
      forall other, other <> stepId ->
        evalM (getStepState other) e' = evalM (getStepState other) e)
  /\ statusOf e' = statusOf e
  /\ startedAtOf e' = startedAtOf e
  /\ completedAtOf e' = completedAtOf e
  /\ ExecutionState.variables (WorkflowType.executionState (_data e'))
     = ExecutionState.variables (WorkflowType.executionState (_data e))
  /\ ExecutionState.outputs (WorkflowType.executionState (_data e'))
     = ExecutionState.outputs (WorkflowType.executionState (_data e))
  /\ ExecutionState.currentStep (WorkflowType.executionState (_data e'))
     = ExecutionState.currentStep (WorkflowType.executionState (_data e))
  /\ WorkflowType.definition (_data e') = WorkflowType.definition (_data e).
Proof.
  cbv zeta. unfold statusOf, startedAtOf, completedAtOf.
  split; [|split].
  - intros other Hne. unfold stepStatesOf. rewrite updateStepState_store.
    cbn [stepStatesEffect]. now apply own_assign_ne.
  - intros Hkey other Hne.
    change (StepStates.lookup
              (storeOf (_data (execM (updateStepState clock stepId state) e)))
              other
            = StepStates.lookup (storeOf (_data e)) other).
    rewrite updateStepState_store. cbn [stepStatesEffect].
    now apply lookup_assign_ne.
  - rewrite !updateStepState_executionState. cbv zeta. repeat split.
    apply (call_definition clock (CallUpdateStepState stepId state)).
Qed.

Lemma updateStepState_frame_witness :
  evalM (getStepState "S1")
        (execM (updateStepState sampleClock "S2"
                  (PartialStepState.of_status StepStatus.running)) halfDone)
  = evalM (getStepState "S1") halfDone.
Proof.
  apply (proj1 (proj2 (updateStepState_frame sampleClock halfDone "S2"
                         (PartialStepState.of_status StepStatus.running)))).
  - discriminate.
  - discriminate.
Defined.

Lemma own_assign_falsy (s : StepStates.t) (key : string) (r : StepState.t) :
  StepStates.lookup s key = None ->
  StepStates.own (StepStates.assign key r s) !! key = Some r.
Proof.
  intros Hnone. unfold StepStates.assign.
  destruct (bool_decide (key = "__proto__")) eqn:Hkey; cbn [andb].
  - apply bool_decide_eq_true in Hkey. subst key.
    destruct (bool_decide (StepStates.own s !! "__proto__" = None)) eqn:Hown.
    + apply bool_decide_eq_true in Hown.
      unfold StepStates.lookup in Hnone. rewrite Hown in Hnone.
      discriminate Hnone.
    + cbn [StepStates.own]. apply lookup_insert_eq.
  - cbn [StepStates.own]. apply lookup_insert_eq.
Qed.

Lemma spread_from_option (old : StepState.t) (state : PartialStepState.t) :
  spread old state
  = StepState.mk
      (from_option Some (StepState.status old)
         (PartialStepState.status state))
      (from_option Some (StepState.startedAt old)
         (PartialStepState.startedAt state))
      (from_option Some (StepState.completedAt old)
         (PartialStepState.completedAt state))
      (from_option Some (StepState.duration old)
         (PartialStepState.duration state))
      (from_option Some (StepState.retryCount old)
         (PartialStepState.retryCount state))
      (from_option Some (StepState.result old)
         (PartialStepState.result state))
      (from_option Some (StepState.error old)
         (PartialStepState.error state)).
Proof. destruct state as [s a b c r u v]. now destruct s, a, b, c, r, u, v. Qed.

(** X26. What [updateStepState] stores. The record it leaves under
    [stepId] has, for each key, the value of the update when the update
    has the key, and else the value of the base: the base is the record
    [{status: 'pending', retryCount: 0}] when [stepStates[stepId]] was
    falsy (the record is then a property of [stepStates] itself), and the
    value of [stepStates[stepId]] when that was truthy. The steps of the
    definition are not consulted or changed, and the progress stored is
    the aggregate over all records, those of ids outside the graph
    included. *)
Theorem updateStepState_default_and_merge
    (clock : nat -> Z) (e : Env) (stepId : string)
    (state : PartialStepState.t) :
  let e' := execM (updateStepState clock stepId state) e in
  let merged (base : StepState.t) :=
    StepState.mk
      (from_option Some (StepState.status base)
         (PartialStepState.status state))
      (from_option Some (StepState.startedAt base)
         (PartialStepState.startedAt state))
      (from_option Some (StepState.completedAt base)
         (PartialStepState.completedAt state))
      (from_option Some (StepState.duration base)
         (PartialStepState.duration state))
      (from_option Some (StepState.retryCount base)
         (PartialStepState.retryCount state))
      (from_option Some (StepState.result base)
         (PartialStepState.result state))
      (from_option Some (StepState.error base)
         (PartialStepState.error state)) in
  (evalM (getStepState stepId) e = None ->
     evalM (getStepState stepId) e'
     = Some (merged (StepState.mk (Some StepStatus.pending) None None None
                       (Some 0) None None))
     /\ stepStatesOf (_data e') !! stepId = evalM (getStepState stepId) e')
  /\ (forall st, evalM (getStepState stepId) e = Some st ->
        evalM (getStepState stepId) e' = Some (merged st))
  /\ stepsOf (_data e') = stepsOf (_data e)
  /\ progressOf e' = aggregate (stepsOf (_data e)) (stepStatesOf (_data e')).
Proof.
  cbv zeta. rewrite updateStepState_record.
  change (evalM (getStepState stepId) e) with (stateOf (_data e) stepId).
  split; [|split; [|split]].
  - intros Hnone. rewrite Hnone. cbn [default].
    split; [now rewrite spread_from_option|].
    unfold stepStatesOf. rewrite updateStepState_store.
    cbn [stepStatesEffect]. unfold stateOf in Hnone. rewrite Hnone.
    apply own_assign_falsy. exact Hnone.
  - intros st Hst. rewrite Hst. cbn [default]. unfold id.
    now rewrite spread_from_option.
  - apply updateStepState_steps.
  - apply updateStepState_progress.
Qed.

Lemma updateStepState_default_and_merge_witness :
  let ghost := execM (updateStepState sampleClock "ghost"
                        (PartialStepState.of_status StepStatus.completed))
                     emptyGraph in
  let again := execM (updateStepState sampleClock "S1"
                        (PartialStepState.mk None None None None None None
                           (Some "late")))
                     finishedRun in
  evalM (getStep "ghost") emptyGraph = None
  /\ evalM (getStepState "ghost") ghost
     = Some (StepState.mk (Some StepStatus.completed) None None None
               (Some 0) None None)
  /\ Progress.completedSteps (progressOf ghost) = 1%nat
  /\ Progress.totalSteps (progressOf ghost) = 0%nat
  /\ evalM (getStepState "S1") again
     = Some (StepState.mk (Some StepStatus.completed) None None None
               (Some 0) None (Some "late")).
Proof.
  cbv zeta. split; [reflexivity|]. split; [|split; [|split]].
  - apply (proj1 (proj1 (updateStepState_default_and_merge sampleClock
                           emptyGraph "ghost"
                           (PartialStepState.of_status StepStatus.completed))
                    eq_refl)).
  - reflexivity.
  - reflexivity.
  - apply (proj1 (proj2 (updateStepState_default_and_merge sampleClock
                           finishedRun "S1"
                           (PartialStepState.mk None None None None None None
                              (Some "late"))))
             (inStatus StepStatus.completed)).
    reflexivity.
Defined.

(** ** The audit log and the timestamps *)

Lemma updateStatus_auditLog clock e status :
  exists now,
    auditLogOf (execM (updateStatus clock status) e)
    = (auditLogOf e
       ++ [AuditEntry.mk now
             ("status_changed_to_" +:+ WorkflowStatus.to_string status)
             None])%list.
Proof.
  run_call. step_ifs; eexists; reflexivity.
Qed.

(** X13. The audit log is append-only: [updateStatus] adds exactly one
    entry, whose action names the new status, and after any sequence of
    calls of the state-changing methods the earlier log is a prefix of the
    log. *)
Theorem auditLog_append_only
    (clock : nat -> Z) (cs : list Call) (e : Env)
    (status : WorkflowStatus.t) :
  auditLogOf e `prefix_of` auditLogOf (execM (calls clock cs) e)
  /\ exists now,
       auditLogOf (execM (updateStatus clock status) e)
       = (auditLogOf e
          ++ [AuditEntry.mk now
                ("status_changed_to_" +:+ WorkflowStatus.to_string status)
                None])%list.
Proof.
  split; [|apply updateStatus_auditLog].
  revert e. induction cs as [|c cs IH]; intros e; [reflexivity|].
  rewrite calls_cons. etransitivity; [apply (call_auditLog clock c)|apply IH].
Qed.

(** X14. The start time is recorded once: when [startedAt] holds a
    non-zero time, no sequence of calls of the state-changing methods
    changes it ([resume] and a second [start] included). A missing or zero
    [startedAt] is set by [start] to the time of its second clock
    reading. *)
Theorem startedAt_recorded_once
    (clock : nat -> Z) (e : Env) :
  (forall cs t, startedAtOf e = Some t -> t <> 0 ->
     startedAtOf (execM (calls clock cs) e) = Some t)
  /\ (falsyNumber (startedAtOf e) = true ->
      startedAtOf (execM (start clock) e) = Some (clock (S (ticks e)))).
Proof.
  split.
  - intros cs. revert e. induction cs as [|c cs IH]; intros e t Ht Hne;
      [exact Ht|].
    rewrite calls_cons. apply IH; [|exact Hne]. now apply call_startedAt.
  - unfold startedAtOf. intros Hfalsy. run_call. rewrite Hfalsy.
    decide_closed. reflexivity.
Qed.

Lemma startedAt_recorded_once_witness :
  startedAtOf
    (execM (calls sampleClock [CallPause; CallResume; CallStart])
       (execM (start sampleClock) freshRun))
  = Some (sampleClock 1)
  /\ startedAtOf (execM (start sampleClock) freshRun) = Some (sampleClock 1).
Proof.
  split.
  - apply (proj1 (startedAt_recorded_once sampleClock
                    (execM (start sampleClock) freshRun))).
    + reflexivity.
    + discriminate.
  - apply (proj2 (startedAt_recorded_once sampleClock freshRun)).
    reflexivity.
Defined.

(** X15. [updateStatus] writes [completedAt] for the statuses completed,
    failed and cancelled, and for no other: a run that is moved to timeout
    (or paused, suspended, ...) keeps the [completedAt] it had. *)
Theorem completedAt_only_for_three_statuses
    (clock : nat -> Z) (e : Env) (status : WorkflowStatus.t) :
  (status ∈ [WorkflowStatus.completed; WorkflowStatus.failed;
              WorkflowStatus.cancelled] ->
     completedAtOf (execM (updateStatus clock status) e)
     = Some (clock (S (ticks e))))
  /\ (status ∉ [WorkflowStatus.completed; WorkflowStatus.failed;
                 WorkflowStatus.cancelled] ->
      completedAtOf (execM (updateStatus clock status) e) = completedAtOf e).
Proof.
  split; intros Hs.
  - assert (Hnr : status <> WorkflowStatus.running).
    { intros ->. apply (bool_decide_pack _) in Hs. exact Hs. }
    run_call. rewrite (bool_decide_eq_false_2 _ Hnr).
    rewrite (bool_decide_eq_true_2 _ Hs). reflexivity.
  - run_call. rewrite (bool_decide_eq_false_2 _ Hs). step_ifs; reflexivity.
Qed.

Lemma completedAt_only_for_three_statuses_witness :
  completedAtOf (execM (updateStatus sampleClock WorkflowStatus.timeout)
                   freshRun) = None
  /\ completedAtOf (execM (updateStatus sampleClock WorkflowStatus.cancelled)
                      freshRun) = Some (sampleClock 1).
Proof.
  split.
  - apply (proj2 (completedAt_only_for_three_statuses sampleClock freshRun
                    WorkflowStatus.timeout)).
    apply (bool_decide_unpack _). vm_compute. exact I.
  - apply (proj1 (completedAt_only_for_three_statuses sampleClock freshRun
                    WorkflowStatus.cancelled)).
    apply (bool_decide_unpack _). vm_compute. exact I.
Defined.

(** X16. [getDuration] after a run: on a workflow that has not started,
    [start] followed by [complete] gives a duration, the difference of the
    clock readings stored in [completedAt] and [startedAt] (both non-zero),
    which is not negative when the clock does not go back; after [start]
    alone, with no [completedAt] yet, there is no duration. *)
Theorem getDuration_of_a_run
    (clock : nat -> Z) (e : Env) (outputs : option (gmap string JsValue)) :
  falsyNumber (startedAtOf e) = true ->
  clock (S (ticks e)) <> 0 ->
  clock (5 + ticks e)%nat <> 0 ->
  evalM getDuration (execM (start clock ;; complete clock outputs) e)
  = Some (clock (5 + ticks e)%nat - clock (S (ticks e)))
  /\ (clock (S (ticks e)) <= clock (5 + ticks e)%nat ->
      exists d, evalM getDuration
                  (execM (start clock ;; complete clock outputs) e) = Some d
                /\ 0 <= d)
  /\ (completedAtOf e = None ->
      evalM getDuration (execM (start clock) e) = None).
Proof.
  unfold startedAtOf, completedAtOf. intros Hfalsy Hs Hc.
  assert (Hrun : evalM getDuration
                   (execM (start clock;; complete clock outputs) e)
                 = Some (clock (5 + ticks e)%nat - clock (S (ticks e)))).
  { run_call. rewrite Hfalsy. decide_closed. cbn.
    destruct outputs; cbn; decide_closed; cbn;
      rewrite (bool_decide_eq_false_2 _ Hs), (bool_decide_eq_false_2 _ Hc);
      reflexivity. }
  split; [exact Hrun|]. split.
  - intros Hle. eexists. split; [exact Hrun|]. lia.
  - intros Hnone. run_call. rewrite Hfalsy. decide_closed. cbn.
    now rewrite Hnone.
Qed.

Lemma getDuration_of_a_run_witness :
  evalM getDuration
        (execM (start sampleClock ;; complete sampleClock None) freshRun)
  = Some 4.
Proof.
  rewrite (proj1 (getDuration_of_a_run sampleClock freshRun None
                    eq_refl ltac:(discriminate) ltac:(discriminate))).
  reflexivity.
Defined.

(** ** Variables, current step, outputs *)

(** X17. [setVariable] and [getVariable] round-trip: for a key other than
    ["__proto__"], [getVariable(key)] after [setVariable(key, value)] is
    the value, and every other key reads as before, provided [variables]
    was an object already or the other key is no member of
    [Object.prototype] (the first [setVariable] creates the object, which
    brings those members); [setVariable] leaves outputs, step states, run
    status and progress as they were. *)
Theorem setVariable_getVariable
    (clock : nat -> Z) (e : Env) (key : string) (value : JsValue) :
  let e' := execM (setVariable clock key value) e in
  (key <> "__proto__" -> evalM (getVariable key) e' = Bag.Value value)
  /\ (key <> "__proto__" ->
      forall other, other <> key ->
        is_Some (ExecutionState.variables
                   (WorkflowType.executionState (_data e)))
        \/ other ∉ objectPrototypeMembers ->
        evalM (getVariable other) e' = evalM (getVariable other) e)
  /\ outputsOf e' = outputsOf e
  /\ storeOf (_data e') = storeOf (_data e)
  /\ statusOf e' = statusOf e
  /\ progressOf e' = progressOf e.
Proof.
  cbv zeta. repeat split; try reflexivity.
  - intros Hkey. run_call. now apply get_set_eq.
  - intros Hkey other Hne Hbag. run_call. rewrite get_set_ne by done.
    destruct (ExecutionState.variables _) as [bag|]; [reflexivity|].
    destruct Hbag as [[bag [=]]|Hmember].
    unfold Bag.get. cbn. now rewrite bool_decide_eq_false_2.
Qed.

Lemma setVariable_getVariable_witness :
  evalM (getVariable "b")
        (execM (setVariable sampleClock "b" (JsNumber 2))
           (execM (setVariable sampleClock "a" (JsNumber 1)) freshRun))
  = Bag.Value (JsNumber 2)
  /\ evalM (getVariable "a")
        (execM (setVariable sampleClock "b" (JsNumber 2))
           (execM (setVariable sampleClock "a" (JsNumber 1)) freshRun))
     = Bag.Value (JsNumber 1).
Proof.
  split.
  - apply (proj1 (setVariable_getVariable sampleClock
             (execM (setVariable sampleClock "a" (JsNumber 1)) freshRun)
             "b" (JsNumber 2))).
    discriminate.
  - rewrite (proj1 (proj2 (setVariable_getVariable sampleClock
               (execM (setVariable sampleClock "a" (JsNumber 1)) freshRun)
               "b" (JsNumber 2))) ltac:(discriminate) "a").
    + reflexivity.
    + discriminate.
    + left. eexists. reflexivity.
Defined.

(** X18. [setCurrentStep] makes the step current and active without
    duplicating it: afterwards [currentStep] is the step, it is in
    [activeSteps], the other ids are in [activeSteps] exactly as before, and
    a second call with the same id changes nothing in the execution
    state. *)
Theorem setCurrentStep_active
    (clock : nat -> Z) (e : Env) (stepId : string) :
  let e' := execM (setCurrentStep clock stepId) e in
  ExecutionState.currentStep (WorkflowType.executionState (_data e'))
  = Some stepId
  /\ In stepId (activeStepsOf e')
  /\ (forall other, other <> stepId ->
        In other (activeStepsOf e') <-> In other (activeStepsOf e))
  /\ (In stepId (activeStepsOf e) -> activeStepsOf e' = activeStepsOf e)
  /\ WorkflowType.executionState
       (_data (execM (setCurrentStep clock stepId) e'))
     = WorkflowType.executionState (_data e').
Proof.
  cbv zeta.
  pose proof (call_activeSteps clock (CallSetCurrentStep stepId) e) as Hact.
  cbn [call activeEffect] in Hact. rewrite Hact.
  split; [run_call; step_ifs; reflexivity|].
  split; [apply pushIfAbsent_In|].
  split; [intros other Hne; now apply pushIfAbsent_other|].
  split.
  - intros Hin. unfold pushIfAbsent, includes.
    rewrite bool_decide_eq_true_2; [reflexivity|now apply list_elem_of_In].
  - clear Hact. destruct e as [[wid wname def es md] tk]. destruct es.
    run_call. unfold includes. step_ifs; try reflexivity; exfalso;
      repeat match goal with
             | H : negb _ = true |- _ => apply negb_true_iff in H
             | H : negb _ = false |- _ => apply negb_false_iff in H
             | H : bool_decide _ = true |- _ => apply bool_decide_eq_true in H
             | H : bool_decide _ = false |- _ =>
                 apply bool_decide_eq_false in H
             end;
      try contradiction;
      match goal with
      | H : ~ (stepId ∈ _) |- _ => cbn in H; apply H, elem_of_app; right
      end;
      now apply list_elem_of_singleton.
Qed.

Lemma setCurrentStep_active_witness :
  activeStepsOf (execM (setCurrentStep sampleClock "S1")
                   (execM (setCurrentStep sampleClock "S1") freshRun))
  = activeStepsOf (execM (setCurrentStep sampleClock "S1") freshRun).
Proof.
  apply (proj1 (proj2 (proj2 (proj2 (setCurrentStep_active sampleClock
           (execM (setCurrentStep sampleClock "S1") freshRun) "S1"))))).
  left. reflexivity.
Defined.

(** ** Pausing, failing, completing *)

(** X19. Pausing and resuming a started run gives the run back: after
    [pause] the run can be resumed, and after [pause] and [resume] the
    execution state is the one before with status running (unchanged, if
    the run was running), while the audit log has two more entries. *)
Theorem pause_then_resume
    (clock : nat -> Z) (e : Env) (t : Z) :
  startedAtOf e = Some t -> t <> 0 ->
  let e' := execM (pause clock ;; resume clock) e in
  evalM canResume (execM (pause clock) e) = true
  /\ evalM canPause e' = true
  /\ WorkflowType.executionState (_data e')
     = ExecutionState.with_status WorkflowStatus.running
         (WorkflowType.executionState (_data e))
  /\ (statusOf e = WorkflowStatus.running ->
      WorkflowType.executionState (_data e')
      = WorkflowType.executionState (_data e))
  /\ length (auditLogOf e') = (length (auditLogOf e) + 2)%nat.
Proof.
  unfold startedAtOf, statusOf. intros Ht Hne. cbv zeta.
  destruct e as [[wid wname def es md] tk]. destruct es. cbn in Ht.
  subst startedAt.
  repeat split; try (cbn; intros ->); run_call;
    repeat (progress (decide_closed; cbn;
                      rewrite ?(bool_decide_eq_false_2 _ Hne)));
    try reflexivity.
  rewrite !length_app. cbn. lia.
Qed.

Lemma pause_then_resume_witness :
  WorkflowType.executionState
    (_data (execM (pause sampleClock ;; resume sampleClock)
              (execM (start sampleClock) halfDone)))
  = WorkflowType.executionState (_data (execM (start sampleClock) halfDone)).
Proof.
  apply (proj1 (proj2 (proj2 (proj2
           (pause_then_resume sampleClock
              (execM (start sampleClock) halfDone) (sampleClock 1)
              eq_refl ltac:(discriminate)))))).
  reflexivity.
Defined.

(** X20. [fail] always ends in status failed; it logs the error only when
    the error is truthy: with an error that is absent or falsy the audit
    log gets the status entry alone, else it gets a [workflow_failed]
    entry carrying [String(error)] and then the status entry. *)
Theorem fail_logs_truthy_errors_only
    (clock : nat -> Z) (e : Env) (error : option ErrorValue) :
  let e' := execM (fail clock error) e in
  statusOf e' = WorkflowStatus.failed
  /\ (error = None \/ isTruthy <$> error = Some false ->
      exists now,
        auditLogOf e'
        = (auditLogOf e
           ++ [AuditEntry.mk now "status_changed_to_failed" None])%list)
  /\ (forall err, error = Some err -> isTruthy err = true ->
      exists now1 now2,
        auditLogOf e'
        = (auditLogOf e
           ++ [AuditEntry.mk now1 "workflow_failed"
                 (Some {[ "error" := JsString (asString err) ]});
               AuditEntry.mk now2 "status_changed_to_failed" None])%list).
Proof.
  cbv zeta. split; [|split].
  - unfold fail. destruct error; rewrite execM_bind;
      apply updateStatus_sets_status.
  - intros Hfalsy. unfold fail. destruct error as [err|].
    + destruct Hfalsy as [[=]|[= Hfalsy]]. rewrite Hfalsy.
      run_call; crunch; eexists; reflexivity.
    + run_call; crunch; eexists; reflexivity.
  - intros err -> Htruthy. unfold fail. rewrite Htruthy. run_call. crunch.
    do 2 eexists. rewrite <- app_assoc. reflexivity.
Qed.

Lemma fail_logs_truthy_errors_only_witness :
  (exists now,
     auditLogOf (execM (fail sampleClock (Some (mkErrorValue false "NaN")))
                   freshRun)
     = (auditLogOf freshRun
        ++ [AuditEntry.mk now "status_changed_to_failed" None])%list)
  /\ exists now1 now2,
       auditLogOf (execM (fail sampleClock
                            (Some (mkErrorValue true "Error: disk full")))
                     freshRun)
       = (auditLogOf freshRun
          ++ [AuditEntry.mk now1 "workflow_failed"
                (Some {[ "error" := JsString "Error: disk full" ]});
              AuditEntry.mk now2 "status_changed_to_failed" None])%list.
Proof.
  split.
  - apply (proj1 (proj2 (fail_logs_truthy_errors_only sampleClock freshRun
                           (Some (mkErrorValue false "NaN"))))).
    right. reflexivity.
  - apply (proj2 (proj2 (fail_logs_truthy_errors_only sampleClock freshRun
                           (Some (mkErrorValue true "Error: disk full"))))
             (mkErrorValue true "Error: disk full")); reflexivity.
Defined.

(** X21. [complete] marks the run completed at the time of its second
    clock reading and keeps every stored output whose key the given
    outputs do not mention; without outputs the bag is left as it is. *)
Theorem complete_keeps_other_outputs
    (clock : nat -> Z) (e : Env) (outputs : option (gmap string JsValue)) :
  let e' := execM (complete clock outputs) e in
  statusOf e' = WorkflowStatus.completed
  /\ completedAtOf e' = Some (clock (S (ticks e)))
  /\ (forall key, default ∅ outputs !! key = None ->
        outputsOf e' !! key = outputsOf e !! key)
  /\ (outputs = None ->
      ExecutionState.outputs (WorkflowType.executionState (_data e'))
      = ExecutionState.outputs (WorkflowType.executionState (_data e))).
Proof.
  cbv zeta. repeat split.
  - unfold complete. rewrite execM_bind. apply updateStatus_sets_status.
  - destruct outputs; run_call; crunch; reflexivity.
  - intros key Hkey. destruct outputs as [o|]; run_call; crunch;
      [|reflexivity].
    cbn in Hkey. now rewrite lookup_union_r.
  - intros ->. run_call. crunch. reflexivity.
Qed.

Lemma complete_keeps_other_outputs_witness :
  outputsOf
    (execM (complete sampleClock (Some {[ "total" := JsNumber 3 ]}))
       (execM (setOutput sampleClock "first" (JsNumber 1)) freshRun))
    !! "first"
  = Some (JsNumber 1).
Proof.
  rewrite (proj1 (proj2 (proj2 (complete_keeps_other_outputs sampleClock
             (execM (setOutput sampleClock "first" (JsNumber 1)) freshRun)
             (Some {[ "total" := JsNumber 3 ]})))) "first").
  - reflexivity.
  - reflexivity.
Defined.

(** ** Execution management of [WorkflowPure.ts] *)

(** X22. In [WorkflowPure.ts], [start] overwrites [startedAt] with the
    current time on every call, [pause] and [resume] leave it alone, and a
    paused run satisfies [canStart]: starting a paused run again resets its
    start time. *)
Theorem pure_start_resets_startedAt (clock : nat -> Z) (e : Env) :
  startedAtOf (execM (PureExecution.start clock) e) = Some (clock (ticks e))
  /\ statusOf (execM (PureExecution.start clock) e) = WorkflowStatus.running
  /\ startedAtOf (execM (PureExecution.pause clock) e) = startedAtOf e
  /\ startedAtOf (execM (PureExecution.resume clock) e) = startedAtOf e
  /\ evalM PureExecution.canStart (execM (PureExecution.pause clock) e) = true
  /\ startedAtOf
       (execM (PureExecution.pause clock ;; PureExecution.start clock) e)
     = Some (clock (S (ticks e))).
Proof.
  unfold PureExecution.start, PureExecution.pause, PureExecution.resume,
    PureExecution.canStart.
  repeat split; run_call; crunch; reflexivity.
Qed.

(** ** Invariants of the progress snapshot and of the records *)

Lemma length_filter_three (a b c : StepStatus.t) (l : list StepState.t) :
  a <> b -> a <> c -> b <> c ->
  (length (List.filter (fun st => bool_decide (StepState.status st = Some a)) l)
   + length (List.filter (fun st => bool_decide (StepState.status st = Some b)) l)
   + length (List.filter (fun st => bool_decide (StepState.status st = Some c)) l)
   <= length l)%nat.
Proof.
  intros Hab Hac Hbc. induction l as [|st l IH]; cbn; [lia|].
  destruct (decide (StepState.status st = Some a)) as [Ha|Ha];
  destruct (decide (StepState.status st = Some b)) as [Hb|Hb];
  destruct (decide (StepState.status st = Some c)) as [Hc|Hc];
    try congruence;
    rewrite ?(bool_decide_eq_true_2 _ Ha), ?(bool_decide_eq_false_2 _ Ha),
            ?(bool_decide_eq_true_2 _ Hb), ?(bool_decide_eq_false_2 _ Hb),
            ?(bool_decide_eq_true_2 _ Hc), ?(bool_decide_eq_false_2 _ Hc);
    cbn; lia.
Qed.

Lemma size_list_to_set_le (l : list string) :
  (size (list_to_set l : gset string) <= length l)%nat.
Proof.
  induction l as [|x l IH]; cbn; [now rewrite size_empty|].
  rewrite size_union_alt, size_singleton.
  pose proof (subseteq_size (list_to_set l ∖ {[x]}) (list_to_set l : gset string))
    as Hsub.
  assert (list_to_set l ∖ {[x]} ⊆ (list_to_set l : gset string)) as Hdiff.
  { intros y Hy. apply elem_of_difference in Hy. tauto. }
  specialize (Hsub Hdiff). lia.
Qed.

(** X23. The counters of the progress snapshot count disjoint sets of
    records: completed + failed + skipped never exceeds the number of state
    records, and it does not exceed [totalSteps] when every record belongs
    to a step of the definition. *)
Theorem progress_counters_bounded (clock : nat -> Z) (e : Env) :
  let p := progressOf (execM (updateProgress clock) e) in
  (Progress.completedSteps p + Progress.failedSteps p
   + Progress.skippedSteps p <= size (stepStatesOf (_data e)))%nat
  /\ ((forall stepId, is_Some (stepStatesOf (_data e) !! stepId) ->
         In stepId (List.map WorkflowStep.id (stepsOf (_data e)))) ->
      (Progress.completedSteps p + Progress.failedSteps p
       + Progress.skippedSteps p <= Progress.totalSteps p)%nat).
Proof.
  cbv zeta.
  assert (Hp : progressOf (execM (updateProgress clock) e)
               = aggregate (stepsOf (_data e)) (stepStatesOf (_data e))).
  { reflexivity. }
  rewrite Hp. cbn [aggregate Progress.totalSteps Progress.completedSteps
                   Progress.failedSteps Progress.skippedSteps].
  assert (Hsum : (countStatus StepStatus.completed (stepStatesOf (_data e))
                  + countStatus StepStatus.failed (stepStatesOf (_data e))
                  + countStatus StepStatus.skipped (stepStatesOf (_data e))
                  <= size (stepStatesOf (_data e)))%nat).
  { unfold countStatus.
    etransitivity; [apply length_filter_three; discriminate|].
    now rewrite length_fmap, length_map_to_list. }
  split; [exact Hsum|]. intros Hdom.
  etransitivity; [exact Hsum|].
  rewrite <- (size_dom (D := gset string)).
  rewrite <- (length_map WorkflowStep.id (stepsOf (_data e))).
  etransitivity; [|apply size_list_to_set_le].
  apply subseteq_size. intros k Hk. apply elem_of_dom in Hk.
  apply elem_of_list_to_set, list_elem_of_In. now apply Hdom.
Qed.

Lemma progress_counters_bounded_witness :
  let p := progressOf (execM (updateProgress sampleClock) halfDone) in
  (Progress.completedSteps p + Progress.failedSteps p
   + Progress.skippedSteps p <= Progress.totalSteps p)%nat.
Proof.
  apply (proj2 (progress_counters_bounded sampleClock halfDone)).
  intros stepId [st Hst].
  destruct (decide (stepId = "S1")) as [->|H1]; [left; reflexivity|].
  destruct (decide (stepId = "S2")) as [->|H2]; [right; left; reflexivity|].
  exfalso. revert Hst. unfold halfDone, mkWorkflow, stepStatesOf, storeOf.
  cbn [_data WorkflowType.executionState ExecutionState.stepStates
       StepStates.own].
  rewrite lookup_insert_ne by congruence.
  rewrite lookup_singleton_ne by congruence. discriminate.
Defined.


Lemma call_steps clock c e :
  stepsOf (_data (execM (call clock c) e)) = stepsOf (_data e).
Proof. unfold stepsOf. now rewrite call_definition. Qed.

Lemma call_inSync clock c e : inSync e -> inSync (execM (call clock c) e).
Proof.
  unfold inSync. intros Hsync. rewrite call_progress, call_steps.
  destruct c; try reflexivity;
    unfold stepStatesOf; rewrite call_stepStates; cbn [stepStatesEffect];
    exact Hsync.
Qed.

(** X24. The progress snapshot does not go stale: once [updateProgress]
    has run, the stored progress equals the aggregate of the current step
    states after any further sequence of calls of the state-changing
    methods. *)
Theorem progress_stays_in_sync
    (clock : nat -> Z) (cs : list Call) (e : Env) :
  let e' := execM (calls clock cs) (execM (updateProgress clock) e) in
  progressOf e' = aggregate (stepsOf (_data e')) (stepStatesOf (_data e')).
Proof.
  cbv zeta. fold (inSync (execM (calls clock cs)
                            (execM (updateProgress clock) e))).
  assert (H0 : inSync (execM (updateProgress clock) e)) by reflexivity.
  revert H0. generalize (execM (updateProgress clock) e) as e0.
  induction cs as [|c cs IH]; intros e0 H0; [exact H0|].
  rewrite calls_cons. apply IH. now apply call_inSync.
Qed.


Lemma stepStatesEffect_own_kept c s stepId :
  is_Some (StepStates.own s !! stepId) ->
  is_Some (StepStates.own (stepStatesEffect c s) !! stepId).
Proof.
  intros His. destruct c; cbn [stepStatesEffect]; try exact His.
  now apply is_Some_own_assign.
Qed.

Lemma stepStatesEffect_own_other c s stepId :
  ~ updates stepId c ->
  StepStates.own (stepStatesEffect c s) !! stepId = StepStates.own s !! stepId.
Proof.
  intros Hc. destruct c; cbn [stepStatesEffect]; try reflexivity.
  cbn in Hc. apply own_assign_ne. congruence.
Qed.

Lemma stepStatesEffect_lookup_kept c s stepId :
  ~ updates "__proto__" c ->
  is_Some (StepStates.lookup s stepId) ->
  is_Some (StepStates.lookup (stepStatesEffect c s) stepId).
Proof.
  intros Hproto His. destruct c; cbn [stepStatesEffect]; try exact His.
  cbn in Hproto. destruct (decide (stepId = stepId0)) as [->|Hne].
  - rewrite lookup_assign_eq. eauto.
  - now rewrite lookup_assign_ne.
Qed.

Lemma stepStatesEffect_lookup_other c s stepId :
  ~ updates "__proto__" c -> ~ updates stepId c ->
  StepStates.lookup (stepStatesEffect c s) stepId = StepStates.lookup s stepId.
Proof.
  intros Hproto Hc. destruct c; cbn [stepStatesEffect]; try reflexivity.
  cbn in Hproto, Hc. apply lookup_assign_ne; congruence.
Qed.

(** X25. State records are never removed and the definition is never
    changed: after any sequence of calls of the state-changing methods the
    definition is the same, every id under which [stepStates] held a
    record still holds one, and the record of an id for which the sequence
    has no [updateStepState] is unchanged. When the sequence has no
    [updateStepState] for ["__proto__"], the same holds for what
    [getStepState] returns: a value that was truthy stays truthy, and the
    value for an id without [updateStepState] is unchanged. *)
Theorem records_and_definition_are_stable
    (clock : nat -> Z) (cs : list Call) (e : Env) (stepId : string) :
  let e' := execM (calls clock cs) e in
  WorkflowType.definition (_data e') = WorkflowType.definition (_data e)
  /\ (is_Some (stepStatesOf (_data e) !! stepId) ->
      is_Some (stepStatesOf (_data e') !! stepId))
  /\ (Forall (fun c => ~ updates stepId c) cs ->
      stepStatesOf (_data e') !! stepId = stepStatesOf (_data e) !! stepId)
  /\ (Forall (fun c => ~ updates "__proto__" c) cs ->
      (is_Some (evalM (getStepState stepId) e) ->
       is_Some (evalM (getStepState stepId) e'))
      /\ (Forall (fun c => ~ updates stepId c) cs ->
          evalM (getStepState stepId) e' = evalM (getStepState stepId) e)).
Proof.
  cbv zeta. revert e. induction cs as [|c cs IH]; intros e.
  { repeat split; auto. }
  rewrite calls_cons.
  destruct (IH (execM (call clock c) e)) as (Hdef & Hown & Hsame & Hview).
  split; [|split; [|split]].
  - now rewrite Hdef, call_definition.
  - intros His. apply Hown. unfold stepStatesOf in *.
    rewrite call_stepStates. now apply stepStatesEffect_own_kept.
  - intros Hall. apply Forall_cons in Hall as [Hc Hcs].
    rewrite (Hsame Hcs). unfold stepStatesOf.
    rewrite call_stepStates. now apply stepStatesEffect_own_other.
  - intros Hproto. apply Forall_cons in Hproto as [Hp Hps].
    destruct (Hview Hps) as [Hsome Hkeep]. split.
    + intros His. apply Hsome.
      change (is_Some (StepStates.lookup
                         (storeOf (_data (execM (call clock c) e))) stepId)).
      rewrite call_stepStates. now apply stepStatesEffect_lookup_kept.
    + intros Hall. apply Forall_cons in Hall as [Hc Hcs].
      rewrite (Hkeep Hcs).
      change (StepStates.lookup
                (storeOf (_data (execM (call clock c) e))) stepId
              = StepStates.lookup (storeOf (_data e)) stepId).
      rewrite call_stepStates. now apply stepStatesEffect_lookup_other.
Qed.

Lemma records_and_definition_are_stable_witness :
  stepStatesOf
    (_data (execM (calls sampleClock
                     [CallStart;
                      CallUpdateStepState "S2"
                        (PartialStepState.of_status StepStatus.running);
                      CallCancel]) halfDone)) !! "S1"
  = stepStatesOf (_data halfDone) !! "S1"
  /\ evalM (getStepState "S1")
        (execM (calls sampleClock
                  [CallStart;
                   CallUpdateStepState "S2"
                     (PartialStepState.of_status StepStatus.running);
                   CallCancel]) halfDone)
     = evalM (getStepState "S1") halfDone.
Proof.
  split.
  - apply (proj1 (proj2 (proj2 (records_and_definition_are_stable sampleClock
             [CallStart;
              CallUpdateStepState "S2"
                (PartialStepState.of_status StepStatus.running);
              CallCancel] halfDone "S1")))).
    repeat constructor; cbn; try tauto. discriminate.
  - apply (proj2 (proj2 (proj2 (records_and_definition_are_stable sampleClock
             [CallStart;
              CallUpdateStepState "S2"
                (PartialStepState.of_status StepStatus.running);
              CallCancel] halfDone "S1")))).
    + repeat constructor; cbn; try tauto. discriminate.
    + repeat constructor; cbn; try tauto. discriminate.
Defined.

(** ** Assignments to ["__proto__"] *)

Lemma assign_proto_own (s : StepStates.t) (r : StepState.t) :
  StepStates.own s !! "__proto__" = None ->
  StepStates.assign "__proto__" r s = StepStates.mk (StepStates.own s) (Some r).
Proof.
  intros Hown. unfold StepStates.assign.
  now rewrite (bool_decide_eq_true_2 _ Hown).
Qed.

(** X27. [updateStepState("__proto__", state)] stores no record: when
    [stepStates] has no property ["__proto__"] of its own, its records are
    the same after the call, and so are the progress counters stored (the
    update is not counted); the merged update becomes the prototype of
    [stepStates] instead, so that, when the update has a status and
    [stepStates] has no record under ["status"], [getStepState("status")]
    is truthy afterwards and a step with the id ["status"] is not
    returned by [getReadySteps]. *)
Theorem updateStepState_proto_replaces_prototype
    (clock : nat -> Z) (e : Env) (state : PartialStepState.t) :
  stepStatesOf (_data e) !! "__proto__" = None ->
  let e' := execM (updateStepState clock "__proto__" state) e in
  stepStatesOf (_data e') = stepStatesOf (_data e)
  /\ progressOf e' = aggregate (stepsOf (_data e)) (stepStatesOf (_data e))
  /\ (forall s, PartialStepState.status state = Some s ->
        stepStatesOf (_data e) !! "status" = None ->
        is_Some (evalM (getStepState "status") e')
        /\ ~ In "status" (evalM getReadySteps e')).
Proof.
  intros Hown. cbv zeta.
  assert (Hstore : storeOf (_data (execM (updateStepState clock "__proto__"
                                            state) e))
                   = StepStates.mk (StepStates.own (storeOf (_data e)))
                       (Some (spread
                                (default defaultStepState
                                   (StepStates.lookup (storeOf (_data e))
                                      "__proto__")) state))).
  { rewrite updateStepState_store. cbn [stepStatesEffect].
    now apply assign_proto_own. }
  assert (Hrecords : stepStatesOf (_data (execM (updateStepState clock
                                                   "__proto__" state) e))
                     = stepStatesOf (_data e)).
  { unfold stepStatesOf. now rewrite Hstore. }
  split; [exact Hrecords|]. split.
  - now rewrite updateStepState_progress, Hrecords.
  - intros s Hs Hstatus.
    assert (Hview : evalM (getStepState "status")
                      (execM (updateStepState clock "__proto__" state) e)
                    = Some StepState.noFields).
    { change (StepStates.lookup
                (storeOf (_data (execM (updateStepState clock "__proto__"
                                          state) e))) "status"
              = Some StepState.noFields).
      rewrite Hstore. unfold StepStates.lookup. cbn [StepStates.own].
      unfold stepStatesOf in Hstatus. rewrite Hstatus.
      unfold StepStates.inherited. cbn [StepStates.proto].
      rewrite (bool_decide_eq_false_2 ("status" = "__proto__"))
        by discriminate.
      cbn [mbind option_bind]. unfold StepStates.field.
      rewrite (bool_decide_eq_true_2 ("status" = "status")) by reflexivity.
      now rewrite (spread_status _ _ s Hs). }
    split; [rewrite Hview; eauto|].
    rewrite evalM_getReadySteps. intros Hin.
    apply readyIds_iff in Hin as (Hnot & _).
    change (stateOf ?d "status")
      with (evalM (getStepState "status") (mkEnv d 0)) in Hnot.
    change (evalM (getStepState "status") (mkEnv ?d 0))
      with (evalM (getStepState "status")
              (execM (updateStepState clock "__proto__" state) e)) in Hnot.
    rewrite Hview in Hnot. discriminate Hnot.
Qed.

Lemma updateStepState_proto_replaces_prototype_witness :
  let polluted :=
    execM (updateStepState sampleClock "__proto__"
             (PartialStepState.of_status StepStatus.completed))
          (mkEnv (mkWorkflow [mkStep "status" []] None WorkflowStatus.running
                    [] ∅) 0) in
  In "status"
     (evalM getReadySteps
        (mkEnv (mkWorkflow [mkStep "status" []] None WorkflowStatus.running
                  [] ∅) 0))
  /\ ~ In "status" (evalM getReadySteps polluted)
  /\ Progress.completedSteps (progressOf polluted) = 0%nat.
Proof.
  cbv zeta. split; [left; reflexivity|]. split.
  - refine (proj2 (proj2 (proj2 (updateStepState_proto_replaces_prototype
             sampleClock
             (mkEnv (mkWorkflow [mkStep "status" []] None
                       WorkflowStatus.running [] ∅) 0)
             (PartialStepState.of_status StepStatus.completed) _))
             StepStatus.completed _ _)); reflexivity.
  - reflexivity.
Defined.

Lemma setVariable_variables clock e key value :
  ExecutionState.variables
    (WorkflowType.executionState
       (_data (execM (setVariable clock key value) e)))
  = Some (Bag.set key value
            (default Bag.empty
               (ExecutionState.variables
                  (WorkflowType.executionState (_data e))))).
Proof. reflexivity. Qed.

Lemma getVariable_get key e :
  evalM (getVariable key) e
  = match ExecutionState.variables (WorkflowType.executionState (_data e)) with
    | Some vars => Bag.get vars key
    | None => Bag.Undefined
    end.
Proof. reflexivity. Qed.

Lemma set_proto (b : Bag.t) (value : JsValue) :
  Bag.own b !! "__proto__" = None -> Bag.nullProto b = false ->
  Bag.set "__proto__" value b
  = if bool_decide (value = JsNull) then Bag.mk (Bag.own b) true else b.
Proof.
  intros Hown Hproto. unfold Bag.set. rewrite Hown, Hproto.
  now destruct value.
Qed.

(** X28. [setOutput("__proto__", value)] and [setVariable("__proto__",
    value)] store no property: when the bag has no property ["__proto__"]
    of its own and [Object.prototype] is its prototype, its properties
    are the same after the call. With a value other than [null],
    [getVariable("__proto__")] then still gives the prototype of the bag;
    with [null] the bag loses its prototype, and [getVariable] gives
    [undefined] for every key the bag does not have itself. *)
Theorem proto_assignment_stores_nothing
    (clock : nat -> Z) (e : Env) (value : JsValue) :
  let variablesOf (e0 : Env) :=
    default Bag.empty
      (ExecutionState.variables (WorkflowType.executionState (_data e0))) in
  (outputsOf e !! "__proto__" = None ->
   Bag.nullProto
     (default Bag.empty
        (ExecutionState.outputs (WorkflowType.executionState (_data e))))
   = false ->
   outputsOf (execM (setOutput clock "__proto__" value) e) = outputsOf e)
  /\ (Bag.own (variablesOf e) !! "__proto__" = None ->
      Bag.nullProto (variablesOf e) = false ->
      let e' := execM (setVariable clock "__proto__" value) e in
      Bag.own (variablesOf e') = Bag.own (variablesOf e)
      /\ (value <> JsNull ->
          evalM (getVariable "__proto__") e' = Bag.Inherited "__proto__")
      /\ (value = JsNull ->
          forall key, Bag.own (variablesOf e) !! key = None ->
            evalM (getVariable key) e' = Bag.Undefined)).
Proof.
  cbv zeta. split.
  - intros Hown Hproto. run_method. cbn.
    rewrite (set_proto _ value Hown Hproto).
    now destruct (bool_decide _).
  - intros Hown Hproto.
    rewrite !getVariable_get, !setVariable_variables.
    rewrite (set_proto _ value Hown Hproto).
    change (default Bag.empty (Some ?b)) with b.
    set (bag := default Bag.empty _) in *.
    split; [now destruct (bool_decide _)|]. split.
    + intros Hvalue. rewrite (bool_decide_eq_false_2 _ Hvalue).
      unfold Bag.get. now rewrite Hown, Hproto.
    + intros -> key Hkey.
      rewrite getVariable_get, setVariable_variables. fold bag.
      rewrite (set_proto bag JsNull Hown Hproto).
      rewrite (bool_decide_eq_true_2 (JsNull = JsNull)) by reflexivity.
      unfold Bag.get. cbn [Bag.own Bag.nullProto negb andb].
      now rewrite Hkey.
Qed.

Lemma proto_assignment_stores_nothing_witness :
  outputsOf (execM (setOutput sampleClock "__proto__" (JsNumber 1))
               emptyGraph) = ∅
  /\ evalM (getVariable "toString")
       (execM (setVariable sampleClock "__proto__" JsNull)
          (execM (setVariable sampleClock "a" (JsNumber 1)) emptyGraph))
     = Bag.Undefined
  /\ evalM (getVariable "toString")
       (execM (setVariable sampleClock "a" (JsNumber 1)) emptyGraph)
     = Bag.Inherited "toString".
Proof.
  split; [|split].
  - apply (proj1 (proto_assignment_stores_nothing sampleClock emptyGraph
                    (JsNumber 1))); reflexivity.
  - refine (proj2 (proj2 (proj2 (proto_assignment_stores_nothing sampleClock
             (execM (setVariable sampleClock "a" (JsNumber 1)) emptyGraph)
             JsNull) _ _)) _ "toString" _); reflexivity.
  - reflexivity.
Defined.
